(** * routing-use-case: auth holder, route guard and search-keyed loader

    A shallow embedding of the glue code of the repository:
    - [services/hooks/auth.tsx]: the auth provider over [localStorage];
    - [routes/_auth.tsx]: the guard of the protected subtree;
    - [services/types/Filters.ts]: the search-parameter schema;
    - [services/hooks/postsByUser.ts]: the fetch function and its query
      options, and the loader of [routes/_auth.users.$id.tsx];
    - the submit handler of the login form;
    - [routes/_auth.users.index.tsx]: the table of users, the submit
      handler of the filter form and the list of posts.

    JavaScript numbers are IEEE-754 doubles and are modelled by Rocq's
    primitive binary64 floats.  A JavaScript string is modelled by the
    [string] of its UTF-8 bytes; its length is counted in UTF-16 code
    units and its white space is that of ECMAScript. *)

From Stdlib Require Import PrimFloat Ascii String.
From stdpp Require Import gmap strings list fin_maps.

Local Open Scope string_scope.
Set Warnings "-register-all".

(** ** JavaScript values *)

Module JS.

Abbreviation number := PrimFloat.float.

(** What [JSON.parse], a form or a response body can hand to the code. *)
Inductive value : Type :=
| VUndefined
| VNull
| VBool (b : bool)
| VNum (n : number)
| VStr (s : string)
| VArr (items : list value)
| VObj (fields : list (string * value)).

(** [ToBoolean] on a number: [+0], [-0] and [NaN] are falsy. *)
Definition truthy_number (n : number) : bool :=
  negb (PrimFloat.is_zero n || PrimFloat.is_nan n).

(** [ToBoolean] on [number | undefined]. *)
Definition truthy_opt_number (o : option number) : bool :=
  match o with
  | Some n => truthy_number n
  | None => false
  end.

(** [ToBoolean] on a string: only the empty string is falsy. *)
Definition truthy_string (s : string) : bool :=
  match s with
  | EmptyString => false
  | String _ _ => true
  end.

(** [ToBoolean] on [string | null]. *)
Definition truthy_opt_string (o : option string) : bool :=
  match o with
  | Some s => truthy_string s
  | None => false
  end.

(** Property read [o.k] on an object: the first binding of [k],
    [undefined] when there is none. *)
Fixpoint get (k : string) (fields : list (string * value)) : value :=
  match fields with
  | [] => VUndefined
  | (k', v) :: rest => if String.eqb k k' then v else get k rest
  end.

(** A JavaScript string is represented by the bytes of its UTF-8
    encoding (as string literals are).  [string_length] is the [.length] of
    the string, its number of UTF-16 code units: one for each code point
    of one, two or three bytes, two for each code point of four bytes;
    continuation bytes count for nothing.  (A string with an unpaired
    surrogate has no UTF-8 encoding and is not represented.) *)
Definition code_units (a : ascii) : nat :=
  let b := nat_of_ascii a in
  if Nat.ltb b 128 then 1
  else if Nat.ltb b 192 then 0
  else if Nat.ltb b 240 then 1
  else 2.

Fixpoint string_length (s : string) : nat :=
  match s with
  | EmptyString => 0
  | String a rest => code_units a + string_length rest
  end.

(** The white space and the line terminators of ECMAScript, which
    [String.prototype.trim] strips.  Of one byte: U+0009 to U+000D and
    U+0020. *)
Definition is_space (a : ascii) : bool :=
  match a with
  | "009"%char | "010"%char | "011"%char | "012"%char | "013"%char
  | " "%char => true
  | _ => false
  end.

(** Of two bytes: U+00A0. *)
Definition is_space2 (a b : ascii) : bool :=
  Nat.eqb (nat_of_ascii a) 194 && Nat.eqb (nat_of_ascii b) 160.

(** Of three bytes: U+1680, U+2000 to U+200A, U+2028, U+2029, U+202F,
    U+205F, U+3000 and U+FEFF. *)
Definition is_space3 (a b c : ascii) : bool :=
  let x := nat_of_ascii a in
  let y := nat_of_ascii b in
  let z := nat_of_ascii c in
  Nat.eqb x 225 && Nat.eqb y 154 && Nat.eqb z 128
  || Nat.eqb x 226 && Nat.eqb y 128
     && (Nat.leb 128 z && Nat.leb z 138
         || Nat.eqb z 168 || Nat.eqb z 169 || Nat.eqb z 175)
  || Nat.eqb x 226 && Nat.eqb y 129 && Nat.eqb z 159
  || Nat.eqb x 227 && Nat.eqb y 128 && Nat.eqb z 128
  || Nat.eqb x 239 && Nat.eqb y 187 && Nat.eqb z 191.

Fixpoint trimStart (s : string) : string :=
  match s with
  | EmptyString => EmptyString
  | String a rest1 =>
      if is_space a then trimStart rest1
      else
        match rest1 with
        | EmptyString => s
        | String b rest2 =>
            if is_space2 a b then trimStart rest2
            else
              match rest2 with
              | EmptyString => s
              | String c rest3 => if is_space3 a b c then trimStart rest3 else s
              end
        end
  end.

(** The same on a reversed string, where the bytes of a code point come
    last byte first. *)
Fixpoint trimStart_reversed (s : string) : string :=
  match s with
  | EmptyString => EmptyString
  | String c rest1 =>
      if is_space c then trimStart_reversed rest1
      else
        match rest1 with
        | EmptyString => s
        | String b rest2 =>
            if is_space2 b c then trimStart_reversed rest2
            else
              match rest2 with
              | EmptyString => s
              | String a rest3 =>
                  if is_space3 a b c then trimStart_reversed rest3 else s
              end
        end
  end.

Definition trimEnd (s : string) : string :=
  String.rev (trimStart_reversed (String.rev s)).

Definition trim (s : string) : string := trimEnd (trimStart s).

End JS.

(** ** The fragment of zod used by the two schemas *)

Module Zod.
Import JS.

(** [safeParse]: either the parsed data or the first issue. *)
Inductive result (A : Type) : Type :=
| Valid (data : A)
| Invalid (issue : string).
Arguments Valid {A} data.
Arguments Invalid {A} issue.

Definition schema (A : Type) : Type := value -> result A.

Definition success {A} (r : result A) : bool :=
  match r with
  | Valid _ => true
  | Invalid _ => false
  end.

(** [z.number()]: a value of type number that is not [NaN]. *)
Definition number : schema JS.number := fun v =>
  match v with
  | VNum n => if PrimFloat.is_nan n then Invalid "Expected number, received nan"
              else Valid n
  | _ => Invalid "Expected number"
  end.

(** [.optional()]: [undefined] is accepted and kept. *)
Definition optional {A} (s : schema A) : schema (option A) := fun v =>
  match v with
  | VUndefined => Valid None
  | _ => match s v with
         | Valid a => Valid (Some a)
         | Invalid i => Invalid i
         end
  end.

(** [.catch(fallback)]: any issue of the inner schema is replaced by the
    fallback value. *)
Definition catch {A} (s : schema A) (fallback : A) : schema A := fun v =>
  match s v with
  | Valid a => Valid a
  | Invalid _ => Valid fallback
  end.

(** String checks, run in the order in which they were chained; [Min]
    and [Max] compare the [.length] of the data, and [Trim] rewrites the
    data seen by the checks after it. *)
Inductive check : Type :=
| Min (value : nat) (message : string)
| Max (value : nat) (message : string)
| Trim.

Fixpoint run_checks (checks : list check) (data : string) : string * list string :=
  match checks with
  | [] => (data, [])
  | Min n message :: rest =>
      let '(d, issues) := run_checks rest data in
      (d, if Nat.ltb (JS.string_length data) n then message :: issues else issues)
  | Max n message :: rest =>
      let '(d, issues) := run_checks rest data in
      (d, if Nat.ltb n (JS.string_length data) then message :: issues else issues)
  | Trim :: rest => run_checks rest (trim data)
  end.

(** [z.string({ required_error })] followed by its checks. *)
Definition string_ (required_error : string) (checks : list check) : schema string :=
  fun v =>
    match v with
    | VStr s => match run_checks checks s with
                | (d, []) => Valid d
                | (_, issue :: _) => Invalid issue
                end
    | VUndefined => Invalid required_error
    | _ => Invalid "Expected string"
    end.

(** [z.object({ k1: s1, k2: s2 })]: the input must be an object; each
    listed key is read and parsed, other keys are stripped. *)
Definition object2 {A B C} (k1 : string) (s1 : schema A) (k2 : string) (s2 : schema B)
    (mk : A -> B -> C) : schema C := fun v =>
  match v with
  | VObj fields =>
      match s1 (get k1 fields), s2 (get k2 fields) with
      | Valid a, Valid b => Valid (mk a b)
      | Invalid i, _ => Invalid i
      | Valid _, Invalid i => Invalid i
      end
  | _ => Invalid "Expected object"
  end.

(** [.array()]: the input must be an array whose items all parse. *)
Fixpoint parse_items {A} (s : schema A) (items : list value) : result (list A) :=
  match items with
  | [] => Valid []
  | v :: rest =>
      match s v with
      | Invalid i => Invalid i
      | Valid a => match parse_items s rest with
                   | Invalid i => Invalid i
                   | Valid l => Valid (a :: l)
                   end
      end
  end.

Definition array {A} (s : schema A) : schema (list A) := fun v =>
  match v with
  | VArr items => parse_items s items
  | _ => Invalid "Expected array"
  end.

End Zod.

(** ** services/hooks/auth.tsx *)

Module Auth.
Import JS.

Record LoginType : Type := { username : string; password : string }.

Definition LoginSchema : Zod.schema LoginType :=
  Zod.object2
    "username" (Zod.string_ "The field is required, buddy" [Zod.Trim])
    "password" (Zod.string_ "We need it to test on the machine"
                  [Zod.Min 3 "You’re missing numbers here, friend";
                   Zod.Max 14 "Whoa, friend, this isn’t German, why so many letters?";
                   Zod.Trim])
    Build_LoginType.

Definition key : string := "boilerplate.auth.user".
Definition keyToken : string := "boilerplate.auth.token".

(** The provider's two [useState] cells together with [localStorage]. *)
Record World : Type := {
  localStorage : gmap string string;
  user : option string;
  token : option string
}.

(** Effects of the provider: a state monad over [World]. *)
Definition M (A : Type) : Type := World -> A * World.

#[global] Instance M_ret : MRet M := fun A a w => (a, w).
#[global] Instance M_bind : MBind M := fun A B f m w => let '(a, w') := m w in f a w'.
Definition exec {A} (m : M A) (w : World) : World := snd (m w).

Definition getItem (k : string) : M (option string) :=
  fun w => (localStorage w !! k, w).
Definition setItem (k v : string) : M unit :=
  fun w => (tt, {| localStorage := <[k := v]> (localStorage w);
                   user := user w; token := token w |}).
Definition removeItem (k : string) : M unit :=
  fun w => (tt, {| localStorage := delete k (localStorage w);
                   user := user w; token := token w |}).
Definition setUser (u : option string) : M unit :=
  fun w => (tt, {| localStorage := localStorage w; user := u; token := token w |}).
Definition setToken (t : option string) : M unit :=
  fun w => (tt, {| localStorage := localStorage w; user := user w; token := t |}).

(** [await sleep(ms)]: a suspension point; the delay itself is not
    modelled. *)
Definition sleep (ms : nat) : M unit := mret tt.

Definition getStoredUser : M (option string) := getItem key.

Definition setStoredUser (user : option string) : M unit :=
  match user with
  | Some u => if truthy_string u then setItem key u else removeItem key
  | None => removeItem key
  end.

Definition getStoredToken : M (option string) := getItem keyToken.

Definition setStoredToken (token : option string) : M unit :=
  match token with
  | Some t => if truthy_string t then setItem keyToken t else removeItem key
  | None => removeItem key
  end.

Definition logout : M unit :=
  sleep 250 ;;
  setStoredUser None ;;
  setUser None.

Definition login (login : LoginType) (token : string) : M unit :=
  sleep 500 ;;
  setStoredUser (Some (username login)) ;;
  setUser (Some (username login)) ;;
  setStoredToken (Some token) ;;
  setToken (Some token).

(** The mount effect: [setUser(getStoredUser()); setToken(getStoredToken())]. *)
Definition restore : M unit :=
  u ← getStoredUser;
  setUser u ;;
  t ← getStoredToken;
  setToken t.

(** The provider mounted on a storage: the initial values of the two
    [useState] cells are read from the storage, and so does the mount
    effect. *)
Definition mount (storage : gmap string string) : World :=
  exec restore {| localStorage := storage; user := None; token := None |}.

(** The value handed to [AuthContext.Provider] on a render (the two
    callbacks are [login] and [logout] above). *)
Record AuthContext : Type := {
  isAuthenticated : bool;
  ctx_user : option string;
  ctx_token : option string
}.

Definition AuthProvider (w : World) : AuthContext :=
  {| isAuthenticated := truthy_opt_string (user w);
     ctx_user := user w;
     ctx_token := token w |}.

(** A thrown [Error] or a returned value. *)
Inductive thrown (A : Type) : Type :=
| Returns (a : A)
| Throws (message : string).
Arguments Returns {A} a.
Arguments Throws {A} message.

(** [context] is [None] outside of an [AuthProvider]. *)
Definition useAuth (context : option AuthContext) : thrown AuthContext :=
  match context with
  | None => Throws "useAuth must be used within an AuthProvider"
  | Some c => Returns c
  end.

End Auth.

(** ** routes/_auth.tsx *)

Module AuthRoute.
Import Auth.

(** What the layout route of the protected subtree can render: the
    inline login form or the matched child route. *)
Inductive Element : Type :=
| AuthComponent
| Outlet.

Definition isAuthenticated (context : option AuthContext) : thrown bool :=
  match useAuth context with
  | Returns auth => Returns (Auth.isAuthenticated auth)
  | Throws message => Throws message
  end.

Definition component (context : option AuthContext) : thrown Element :=
  match isAuthenticated context with
  | Returns b => if negb b then Returns AuthComponent else Returns Outlet
  | Throws message => Throws message
  end.

(** A rendered match of the route: the location it was matched at and
    the element shown there.  The route options hold a [component] only
    (no [beforeLoad], no [loader], no [redirect]), so the location of
    the match is the one that was navigated to. *)
Record Match : Type := { pathname : string; element : Element }.

Definition render (location : string) (context : option AuthContext) : thrown Match :=
  match component context with
  | Returns e => Returns {| pathname := location; element := e |}
  | Throws message => Throws message
  end.

End AuthRoute.

(** ** services/types/Filters.ts *)

Module Filters.
Import JS.

Record FilterType : Type := { userId : option number; postId : option number }.

Definition FilterSchema : Zod.schema FilterType :=
  Zod.object2
    "userId" (Zod.catch (Zod.optional Zod.number) None)
    "postId" (Zod.catch (Zod.optional Zod.number) None)
    Build_FilterType.

(** [validateSearch: FilterSchema]: the router hands the search object
    read from the URL to the schema. *)
Definition validateSearch (search : list (string * value)) : Zod.result FilterType :=
  FilterSchema (VObj search).

(** The filters that the schema can produce: no field is [NaN]. *)
Definition valid_field (o : option number) : bool :=
  match o with
  | Some n => negb (PrimFloat.is_nan n)
  | None => true
  end.

Definition valid (f : FilterType) : bool :=
  valid_field (userId f) && valid_field (postId f).

End Filters.

(** ** The search string of the URL *)

Module Router.
Import JS Filters.

(** The router's [stringifySearch] and [parseSearch] are library code
    and are not among the sources.  They are modelled after the
    router's defaults, on the searches that the application writes:
    objects whose values are numbers or [undefined].  The serialiser
    drops the keys that are [undefined] and writes a number as
    [String(n)]; the parser reads a value back as a number when its
    text is the text of a finite number, and otherwise tries
    [JSON.parse] on it and keeps the string when that throws. *)

(** The text of a number, [String(n)]: the digits of a finite number
    (ECMAScript fixes them so that they read back as that number, and
    writes both zeros [0]), or one of the three names. *)
Inductive NumberText : Type :=
| Digits (n : number)
| Infinity_text (negative : bool)
| NaN_text.

Definition String_of_number (n : number) : NumberText :=
  if PrimFloat.is_nan n then NaN_text
  else if PrimFloat.is_infinity n then Infinity_text (PrimFloat.ltb n 0)
  else if PrimFloat.is_zero n then Digits 0
  else Digits n.

(** The characters of a text that is not made of digits. *)
Definition name_of (negative : bool) : string :=
  if negative then "-Infinity" else "Infinity".

(** A search string: its [key=value] pairs, in their order. *)
Definition SearchString : Type := list (string * NumberText).

Definition stringify_field (k : string) (o : option number) : SearchString :=
  match o with
  | Some n => [(k, String_of_number n)]
  | None => []
  end.

(** [stringifySearch] on the search of a filter. *)
Definition stringifySearch (search : FilterType) : SearchString :=
  (stringify_field "userId" (userId search)
   ++ stringify_field "postId" (postId search))%list.

(** What the parser makes of a value: [+str * 0 === 0 && +str + '' ===
    str ? +str : str], then [JSON.parse] on a string, which throws on
    [Infinity], [-Infinity] and [NaN]. *)
Definition parse_value (t : NumberText) : value :=
  match t with
  | Digits n => VNum n
  | Infinity_text negative => VStr (name_of negative)
  | NaN_text => VStr "NaN"
  end.

Definition parseSearch (searchStr : SearchString) : list (string * value) :=
  List.map (fun kv => (fst kv, parse_value (snd kv))) searchStr.

(** [===] on [number | undefined]. *)
Definition strict_equal (a b : option number) : bool :=
  match a, b with
  | Some n, Some m => PrimFloat.eqb n m
  | None, None => true
  | _, _ => false
  end.

(** Two filters whose fields are [===]. *)
Definition same_filter (f g : FilterType) : bool :=
  strict_equal (userId f) (userId g) && strict_equal (postId f) (postId g).

(** The filters whose present fields are finite numbers. *)
Definition finite_field (o : option number) : bool :=
  match o with
  | Some n => PrimFloat.is_finite n
  | None => true
  end.

Definition finite (f : FilterType) : bool :=
  finite_field (userId f) && finite_field (postId f).

End Router.

(** ** services/hooks/postsByUser.ts *)

Module Posts.
Import JS Filters.

(** [services/types/Posts] and the placeholder are not among the
    sources: the post type, its schema and the placeholder post are
    parameters. *)
Class PostsTypes : Type := {
  PostType : Type;
  PostSchema : Zod.schema PostType;
  placeholderPost : PostType
}.

(** An [async] function body: it returns, or awaits [api.get] and goes
    on with the response data. *)
Inductive Async (A : Type) : Type :=
| Return (a : A)
| Await_get (path : string) (params : FilterType) (k : value -> Async A).
Arguments Return {A} a.
Arguments Await_get {A} path params k.

Fixpoint Async_bind {A B} (f : A -> Async B) (m : Async A) : Async B :=
  match m with
  | Return a => f a
  | Await_get path params k => Await_get path params (fun data => Async_bind f (k data))
  end.

#[global] Instance Async_ret : MRet Async := fun A a => Return a.
#[global] Instance Async_mbind : MBind Async := fun A B f m => Async_bind f m.

Definition api_get (path : string) (params : FilterType) : Async value :=
  Await_get path params Return.

(** The network: the response data of a request, or [None] when the
    request fails. *)
Definition Network : Type := string -> FilterType -> option value.

Inductive settled (A : Type) : Type :=
| Fulfilled (a : A)
| Rejected.
Arguments Fulfilled {A} a.
Arguments Rejected {A}.

(** Runs a body against a network; also returns the requests sent. *)
Fixpoint run {A} (net : Network) (body : Async A) : settled A * list (string * FilterType) :=
  match body with
  | Return a => (Fulfilled a, [])
  | Await_get path params k =>
      match net path params with
      | None => (Rejected, [(path, params)])
      | Some data => let '(r, sent) := run net (k data) in (r, (path, params) :: sent)
      end
  end.

Section WithPosts.
Context `{PostsTypes}.

Inductive ReturnUserPostType : Type :=
| error (data : PostType)
| success (data : list PostType).

Definition GetUserPostById (filter : FilterType) : Async ReturnUserPostType :=
  if negb (truthy_opt_number (postId filter)) && negb (truthy_opt_number (userId filter))
  then Return (error placeholderPost)
  else
    data ← api_get "posts" filter;
    match Zod.array PostSchema data with
    | Zod.Invalid _ => Return (error placeholderPost)
    | Zod.Valid posts => Return (success posts)
    end.

Record QueryOptions : Type := {
  queryKey : string * FilterType;
  queryFn : Async ReturnUserPostType
}.

Definition UserPostById (filter : FilterType) : QueryOptions :=
  {| queryKey := ("posts-by-user", filter);
     queryFn := GetUserPostById filter |}.

End WithPosts.

End Posts.

(** ** The query cache behind the loader *)

Module QueryClient.
Import JS Filters Posts.

(** The canonical serialisation of a query key (stable under the order
    of the fields of the filter) is the cache library's; it is a
    parameter. *)
Class Hashing : Type := { hashKey : string * FilterType -> string }.

Section WithCache.
Context `{PostsTypes} `{Hashing}.

(** A resolution in flight: its promise, the hash of its key and what
    is left to run of its [queryFn]. *)
Record Fetch : Type := {
  promise : nat;
  queryHash : string;
  body : Async ReturnUserPostType
}.

(** A resolved entry: the tagged payload and its freshness marker. *)
Record CacheEntry : Type := {
  data : ReturnUserPostType;
  fresh : bool
}.

(** Modelled from the spec: the cache of [queryClient], whose code is the
    imported cache library's and is not among the sources.  It is the
    explicit map of the design notes: from the canonical cache key to a
    resolved entry ([queries]) or to a resolution in flight ([fetching]).
    [settlements] records what each promise was fulfilled with,
    [started] the keys whose [queryFn] was started and [requests] the
    requests sent to the network. *)
Record QueryCache : Type := {
  queries : gmap string CacheEntry;
  fetching : list Fetch;
  settlements : gmap nat ReturnUserPostType;
  next_promise : nat;
  started : list string;
  requests : list (string * FilterType)
}.

Definition empty_cache : QueryCache :=
  {| queries := ∅; fetching := []; settlements := ∅; next_promise := 0;
     started := []; requests := [] |}.

(** What a caller of [ensureQueryData] holds: the payload of the cached
    entry, or the promise of the resolution it joined. *)
Inductive Handle : Type :=
| Ready (entry : ReturnUserPostType)
| Pending (p : nat).

(** The payload cached for a key, when there is an entry and it is
    fresh. *)
Definition cached (h : string) (c : QueryCache) : option ReturnUserPostType :=
  match queries c !! h with
  | Some entry => if fresh entry then Some (data entry) else None
  | None => None
  end.

Definition in_flight (h : string) (c : QueryCache) : option Fetch :=
  snd <$> list_find (fun q => queryHash q = h) (fetching c).

(** The request that a body is waiting on, sent when the body reaches
    its [await]. *)
Definition sent {A} (b : Async A) : list (string * FilterType) :=
  match b with
  | Return _ => []
  | Await_get path params _ => [(path, params)]
  end.

(** Modelled from the spec: [ensureQueryData(options)], the cache
    library's method.  A fresh entry for the key is returned without a
    fetch; otherwise a resolution in flight for the key is joined, and
    when there is none the [queryFn] is started once and its promise
    returned. *)
Definition ensureQueryData (options : QueryOptions) (c : QueryCache) : Handle * QueryCache :=
  let h := hashKey (queryKey options) in
  match cached h c with
  | Some entry => (Ready entry, c)
  | None =>
      match in_flight h c with
      | Some q => (Pending (promise q), c)
      | None =>
          let p := next_promise c in
          (Pending p,
           {| queries := queries c;
              fetching := fetching c ++ [{| promise := p; queryHash := h;
                                            body := queryFn options |}];
              settlements := settlements c;
              next_promise := S p;
              started := started c ++ [h];
              requests := requests c ++ sent (queryFn options) |})
      end
  end.

(** [loader] of [/_auth/users/$id]:
    [queryClient.ensureQueryData(UserPostById(filters))]. *)
Definition loader (filters : FilterType) (c : QueryCache) : Handle * QueryCache :=
  ensureQueryData (UserPostById filters) c.

(** What the holder of a handle reads from it once the cache is in
    state [c]. *)
Definition observe (c : QueryCache) (h : Handle) : option ReturnUserPostType :=
  match h with
  | Ready entry => Some entry
  | Pending p => settlements c !! p
  end.

(** Modelled from the spec: the turns of the event loop that touch the
    cache.  A loader runs; the network answers the request a resolution
    waits on; that request fails (nothing is cached, the resolution is
    dropped); a resolution whose body has returned is stored as a fresh
    entry; the time-to-live of an entry runs out and it becomes stale. *)
Inductive Event : Type :=
| Ensure (filters : FilterType)
| Respond (p : nat) (response : value)
| NetworkError (p : nat)
| Settle (p : nat)
| Expire (h : string).

Definition stale (entry : CacheEntry) : CacheEntry :=
  {| data := data entry; fresh := false |}.

Definition find_promise (p : nat) (c : QueryCache) : option Fetch :=
  snd <$> list_find (fun q => promise q = p) (fetching c).

Definition resume (p : nat) (b : Async ReturnUserPostType) (q : Fetch) : Fetch :=
  if bool_decide (promise q = p)
  then {| promise := promise q; queryHash := queryHash q; body := b |}
  else q.

Definition discard (p : nat) (qs : list Fetch) : list Fetch :=
  filter (fun q => promise q ≠ p) qs.

Definition step (c : QueryCache) (e : Event) : QueryCache :=
  match e with
  | Ensure filters => snd (loader filters c)
  | Respond p response =>
      match find_promise p c with
      | Some {| body := Await_get _ _ k |} =>
          {| queries := queries c;
             fetching := resume p (k response) <$> fetching c;
             settlements := settlements c;
             next_promise := next_promise c;
             started := started c;
             requests := requests c ++ sent (k response) |}
      | _ => c
      end
  | NetworkError p =>
      match find_promise p c with
      | Some {| body := Await_get _ _ _ |} =>
          {| queries := queries c;
             fetching := discard p (fetching c);
             settlements := settlements c;
             next_promise := next_promise c;
             started := started c;
             requests := requests c |}
      | _ => c
      end
  | Settle p =>
      match find_promise p c with
      | Some {| queryHash := h; body := Return r |} =>
          {| queries := <[h := {| data := r; fresh := true |}]> (queries c);
             fetching := discard p (fetching c);
             settlements := <[p := r]> (settlements c);
             next_promise := next_promise c;
             started := started c;
             requests := requests c |}
      | _ => c
      end
  | Expire h =>
      {| queries := alter stale h (queries c);
         fetching := fetching c;
         settlements := settlements c;
         next_promise := next_promise c;
         started := started c;
         requests := requests c |}
  end.

Definition steps (c : QueryCache) (trace : list Event) : QueryCache :=
  foldl step c trace.

(** The keys that have a resolution in flight, one occurrence for each. *)
Definition in_flight_keys (c : QueryCache) : list string :=
  queryHash <$> fetching c.

End WithCache.

End QueryClient.

(** ** A small instance, to run the functions on concrete inputs *)

Module Sample.
Import JS Auth Filters Posts QueryClient.

(** A session persisted by an earlier login, and one started on an
    empty storage. *)
Definition stored_session : World :=
  mount (<[keyToken := "skajdksjakdj"]> (<[key := "admin"]> ∅)).
Definition fresh_session : World := mount ∅.

(** Form values as the login form submits them. *)
Definition form (username password : string) : value :=
  VObj [("username", VStr username); ("password", VStr password)].

(** Posts reduced to their title. *)
#[global] Instance posts : PostsTypes :=
  {| PostType := string;
     PostSchema := Zod.string_ "Required" [];
     placeholderPost := "placeholder" |}.

Definition tag (o : option number) : string :=
  match o with
  | Some _ => "#"
  | None => "_"
  end.

(** A coarse hash: the resource tag and which fields are present. *)
#[global] Instance hashing : Hashing :=
  {| hashKey := fun k => fst k ++ tag (userId (snd k)) ++ tag (postId (snd k)) |}.

Definition no_filter : FilterType := {| userId := None; postId := None |}.
Definition user_three : FilterType := {| userId := Some 3%float; postId := None |}.
Definition user_zero : FilterType := {| userId := Some 0%float; postId := None |}.

(** A network that answers every request with a body that is not an
    array of posts. *)
Definition broken_backend : Network := fun _ _ => Some (VObj [("message", VStr "oops")]).

End Sample.

(** ** Sequences of calls on the provider *)

Module Session.
Import JS Auth.

(** What can happen to a provider: a call of [login], a call of
    [logout], and a reload of the page, which mounts a new provider on
    the storage left by the old one. *)
Inductive Action : Type :=
| Login (login : LoginType) (token : string)
| Logout
| Reload.

Definition act (w : World) (a : Action) : World :=
  match a with
  | Login l t => exec (login l t) w
  | Logout => exec logout w
  | Reload => mount (localStorage w)
  end.

Definition session_after (w : World) (actions : list Action) : World :=
  foldl act w actions.

(** A [login] whose user name and token are not empty. *)
Definition well_formed (a : Action) : bool :=
  match a with
  | Login l t => truthy_string (username l) && truthy_string t
  | Logout | Reload => true
  end.

(** The session in memory agrees with the storage. *)
Definition coherent (w : World) : Prop :=
  user w = localStorage w !! key ∧ token w = localStorage w !! keyToken.

End Session.

(** ** The submit handler of the login form *)

Module UserAuthForm.
Import JS Auth.

Inductive Toast : Type :=
| toast_success (message : string)
| toast_error (message : string).

(** What a submit leaves besides the provider's state: the toast shown
    and whether [router.invalidate()] is called once [login] has
    resolved. *)
Record Submitted : Type := { toast : Toast; invalidate : bool }.

Definition onSubmit (values : LoginType) : M Submitted :=
  if String.eqb (username values) "admin" && String.eqb (password values) "admin"
  then
    login values "skajdksjakdj" ;;
    mret {| toast := toast_success "toastMessage.success.title"; invalidate := true |}
  else
    mret {| toast := toast_error "toastMessage.error.title"; invalidate := false |}.

End UserAuthForm.

(** ** routes/_auth.users.index.tsx *)

Module UsersRoute.
Import JS Auth Filters Posts.

Record User : Type := { id : number; name : string }.

Definition USERS : list User :=
  [ {| id := 1; name := "Allberson" |};
    {| id := 2; name := "Caio" |};
    {| id := 3; name := "David" |};
    {| id := 4; name := "George" |};
    {| id := 5; name := "Jeni" |};
    {| id := 6; name := "Jesus" |};
    {| id := 7; name := "Juca" |};
    {| id := 8; name := "Lahra" |};
    {| id := 9; name := "Leo" |};
    {| id := 10; name := "Alecrim" |};
    {| id := 11; name := "Matheus" |};
    {| id := 12; name := "Natan" |};
    {| id := 13; name := "Paulo" |};
    {| id := 14; name := "Pedro" |};
    {| id := 15; name := "Renato" |};
    {| id := 16; name := "Vitor" |} ]%float.

(** What [navigate] is called with. *)
Record NavigateOptions : Type := {
  to : string;
  search : list (string * value)
}.

Definition of_optional (o : option number) : value :=
  match o with
  | Some n => VNum n
  | None => VUndefined
  end.

(** [onSubmit] of the filter form:
    [navigate({ to: '/users', search: { userId: data.userId } })]. *)
Definition onSubmit (data : FilterType) : NavigateOptions :=
  {| to := "/users"; search := [("userId", of_optional (userId data))] |}.

(** [USERS.find((user) => user.id === post.userId)!.name]: reading
    [name] of [undefined] throws. *)
Definition user_name (userId : number) : thrown string :=
  match List.find (fun user => PrimFloat.eqb (id user) userId) USERS with
  | Some user => Returns (name user)
  | None => Throws "TypeError: Cannot read properties of undefined (reading 'name')"
  end.

(** [Array.prototype.map] with a callback that may throw: the first
    throw ends the map. *)
Fixpoint map_thrown {A B} (f : A -> thrown B) (l : list A) : thrown (list B) :=
  match l with
  | [] => Returns []
  | a :: rest =>
      match f a with
      | Throws message => Throws message
      | Returns b =>
          match map_thrown f rest with
          | Throws message => Throws message
          | Returns bs => Returns (b :: bs)
          end
      end
  end.

Section WithPosts.
Context `{PostsTypes}.

(** The fields of a post that the view reads; the type itself is
    declared in [services/types/Posts], which is not among the
    sources. *)
Class PostFields : Type := {
  post_userId : PostType -> number;
  post_id : PostType -> number;
  post_title : PostType -> string;
  post_body : PostType -> string
}.
Context `{PostFields}.

(** The [Link] rendered for a post: its target, its path parameter,
    its search and the texts it shows. *)
Record PostLink : Type := {
  link_key : number;
  link_to : string;
  link_params_id : string;
  link_search : list (string * value);
  link_title : string;
  link_body : string
}.

Definition post_link (post : PostType) : thrown PostLink :=
  match user_name (post_userId post) with
  | Throws message => Throws message
  | Returns user =>
      Returns {| link_key := post_id post;
                 link_to := "/users/$id";
                 link_params_id := user;
                 link_search := [("postId", VNum (post_id post));
                                 ("userId", VNum (post_userId post))];
                 link_title := post_title post;
                 link_body := post_body post |}
  end.

(** The three things the list of posts can show.  The loader data of
    this route is read as the tagged union that the fetch function
    returns: an array of posts under [success], one post otherwise. *)
Inductive PostsView : Type :=
| PostLinks (links : list PostLink)
| NoContent
| Placeholder (title body : string).

(** The posts part of [UsersComponent]:
    [posts.type === 'success'
       ? (posts.data.length ? posts.data.map(...) : noContent)
       : placeholder]. *)
Definition posts_view (posts : ReturnUserPostType) : thrown PostsView :=
  match posts with
  | success data =>
      match data with
      | [] => Returns NoContent
      | _ :: _ =>
          match map_thrown post_link data with
          | Throws message => Throws message
          | Returns links => Returns (PostLinks links)
          end
      end
  | error data => Returns (Placeholder (post_title data) (post_body data))
  end.

End WithPosts.

End UsersRoute.

(** ** Posts with the fields the views read, to run the views *)

Module Fixtures.
Import JS Filters Posts UsersRoute.

(** A sequence of calls on the provider, and a storage that also holds
    a key of another part of the application. *)
Definition a_day : list Session.Action :=
  [Session.Login {| Auth.username := "admin"; Auth.password := "admin" |} "skajdksjakdj";
   Session.Reload; Session.Logout;
   Session.Login {| Auth.username := "leo"; Auth.password := "secret" |} "t0k3n"].

Definition themed_session : Auth.World := Auth.mount (<["vite-ui-theme" := "dark"]> ∅).

Record Post : Type := {
  author : number;
  number : number;
  heading : string;
  text : string
}.

Definition post_schema : Zod.schema Post := fun v =>
  match v with
  | VObj fields =>
      match Zod.number (get "userId" fields), Zod.number (get "id" fields),
            get "title" fields, get "body" fields with
      | Zod.Valid u, Zod.Valid i, VStr t, VStr b =>
          Zod.Valid {| author := u; number := i; heading := t; text := b |}
      | _, _, _, _ => Zod.Invalid "Invalid post"
      end
  | _ => Zod.Invalid "Expected object"
  end.

Definition posts : PostsTypes :=
  {| PostType := Post;
     PostSchema := post_schema;
     placeholderPost := {| author := 0; number := 0;
                           heading := "No posts"; text := "Select a user" |} |}.

Definition fields : @PostFields posts :=
  {| post_userId := author : @PostType posts -> JS.number;
     post_id := number;
     post_title := heading;
     post_body := text |}.

Definition post_json (u i : JS.number) (t b : string) : value :=
  VObj [("userId", VNum u); ("id", VNum i); ("title", VStr t); ("body", VStr b)].

Definition first_post : Post :=
  {| author := 1; number := 1; heading := "sunt aut facere"; text := "quia et suscipit" |}.

Definition stray_post : Post :=
  {| author := 99; number := 7; heading := "magnam facilis"; text := "dolore placeat" |}.

(** A network that answers every request with one well-formed post,
    and one that fails every request. *)
Definition healthy_backend : Network :=
  fun _ _ => Some (VArr [post_json 1 1 "sunt aut facere" "quia et suscipit"]).
Definition offline : Network := fun _ _ => None.

End Fixtures.

(** * Properties *)

(** ** The auth holder *)

Module AuthFacts.
Import JS Auth Sample.

Lemma key_neq_keyToken : key ≠ keyToken.
Proof. discriminate. Qed.

Lemma truthy_opt_string_false (o : option string) :
  truthy_opt_string o = false -> o = None ∨ o = Some "".
Proof. destruct o as [[|a s]|]; simpl; intros; try discriminate; auto. Qed.

Lemma truthy_string_nonempty (s : string) : s ≠ "" -> truthy_string s = true.
Proof. by destruct s. Qed.

(** Clearing either key removes the user-identity key. *)
Lemma setStoredUser_falsy (o : option string) (w : World) :
  truthy_opt_string o = false ->
  exec (setStoredUser o) w =
    {| localStorage := delete key (localStorage w); user := user w; token := token w |}.
Proof. by intros [-> | ->]%truthy_opt_string_false. Qed.

Lemma setStoredToken_falsy (o : option string) (w : World) :
  truthy_opt_string o = false ->
  exec (setStoredToken o) w =
    {| localStorage := delete key (localStorage w); user := user w; token := token w |}.
Proof. by intros [-> | ->]%truthy_opt_string_false. Qed.

Lemma logout_exec (w : World) :
  exec logout w =
    {| localStorage := delete key (localStorage w); user := None; token := token w |}.
Proof. reflexivity. Qed.

(** What [login] leaves behind, for a user name and a token that are
    not empty. *)
Lemma login_exec (l : LoginType) (t : string) (w : World) :
  username l ≠ "" -> t ≠ "" ->
  exec (login l t) w =
    {| localStorage := <[keyToken := t]> (<[key := username l]> (localStorage w));
       user := Some (username l); token := Some t |}.
Proof.
  intros Hu Ht. unfold login, exec, mbind, M_bind, sleep, mret, M_ret. simpl.
  rewrite (truthy_string_nonempty _ Hu), (truthy_string_nonempty _ Ht). reflexivity.
Qed.

Lemma login_user (l : LoginType) (t : string) (w : World) :
  user (exec (login l t) w) = Some (username l).
Proof.
  unfold login, exec, mbind, M_bind, sleep, mret, M_ret. simpl.
  destruct (truthy_string (username l)), (truthy_string t); reflexivity.
Qed.

Lemma login_token (l : LoginType) (t : string) (w : World) :
  token (exec (login l t) w) = Some t.
Proof.
  unfold login, exec, mbind, M_bind, sleep, mret, M_ret. simpl.
  destruct (truthy_string (username l)), (truthy_string t); reflexivity.
Qed.

(** A session persisted by an earlier [login] is restored on mount. *)
Lemma mount_restores (storage : gmap string string) (u : string) :
  storage !! key = Some u -> u ≠ "" ->
  isAuthenticated (AuthProvider (mount storage)) = true.
Proof.
  intros Hk Hu. unfold mount, exec, restore, mbind, M_bind. simpl.
  rewrite Hk. by apply truthy_string_nonempty.
Qed.

(** C7: when it is called to clear the token (the token is [null] or
    empty), [setStoredToken] removes the user-identity key
    [boilerplate.auth.user] and leaves the token key
    [boilerplate.auth.token] as it was. *)
Theorem setStoredToken_clear_removes_user_key (t : option string) (w : World) :
  truthy_opt_string t = false ->
  let w' := exec (setStoredToken t) w in
  localStorage w' = delete key (localStorage w)
  ∧ localStorage w' !! key = None
  ∧ localStorage w' !! keyToken = localStorage w !! keyToken.
Proof.
  intros Ht w'. subst w'. rewrite (setStoredToken_falsy _ _ Ht). simpl.
  split; [reflexivity|]. split.
  - apply lookup_delete_eq.
  - apply lookup_delete_ne, key_neq_keyToken.
Qed.

Lemma setStoredToken_clear_removes_user_key_witness :
  truthy_opt_string None = false
  ∧ localStorage (exec (setStoredToken None) stored_session) !! key = None
  ∧ localStorage (exec (setStoredToken None) stored_session) !! keyToken
    = Some "skajdksjakdj".
Proof.
  split; [reflexivity|].
  destruct (setStoredToken_clear_removes_user_key None stored_session eq_refl)
    as (_ & Hk & Ht).
  split; [exact Hk|]. rewrite Ht. reflexivity.
Defined.

(** C10: [logout] clears the user identity only, in memory and in
    storage; the token of the session and the persisted token key keep
    the values they had before. *)
Theorem logout_keeps_token (w : World) :
  let w' := exec logout w in
  token w' = token w
  ∧ ctx_token (AuthProvider w') = ctx_token (AuthProvider w)
  ∧ localStorage w' !! keyToken = localStorage w !! keyToken
  ∧ user w' = None
  ∧ localStorage w' = delete key (localStorage w).
Proof.
  rewrite logout_exec. simpl. repeat split.
  apply lookup_delete_ne, key_neq_keyToken.
Qed.

(** The schema accepts an empty user name: [username] has no [min]
    check, and a user name of white space is trimmed to the empty one. *)
Lemma LoginSchema_empty_username :
  LoginSchema (form "" "admin") = Zod.Valid {| username := ""; password := "admin" |}
  ∧ LoginSchema (form "  " "admin") = Zod.Valid {| username := ""; password := "admin" |}.
Proof. split; reflexivity. Qed.

(** C3, as stated, fails: the credentials with an empty user name are
    accepted by [LoginSchema], and after [login] with them the session
    is not authenticated ([!!user] is false on the empty string, and
    [setStoredUser] removes the key instead of writing it). *)
Lemma login_authenticates_counterexample :
  ¬ (∀ (raw : value) (creds : LoginType) (tok : string) (w : World),
       LoginSchema raw = Zod.Valid creds ->
       let w' := exec (login creds tok) w in
       isAuthenticated (AuthProvider w') = true
       ∧ ctx_user (AuthProvider w') = Some (username creds)
       ∧ isAuthenticated (AuthProvider (exec logout w')) = false).
Proof.
  intros Hclaim.
  destruct (Hclaim (form "" "admin") {| username := ""; password := "admin" |}
              "skajdksjakdj" fresh_session eq_refl) as [Hauth _].
  vm_compute in Hauth. discriminate.
Qed.

(** What happens there: the user of the session is the empty name, the
    session is not authenticated and no user is persisted. *)
Example login_empty_username :
  let w' := exec (login {| username := ""; password := "admin" |} "skajdksjakdj")
              fresh_session in
  user w' = Some ""
  ∧ isAuthenticated (AuthProvider w') = false
  ∧ localStorage w' !! key = None.
Proof. vm_compute. repeat split. Qed.

(** With an empty token, [setStoredToken] takes its clearing branch and
    removes the user that [login] has just persisted. *)
Example login_empty_token :
  let w' := exec (login {| username := "admin"; password := "admin" |} "") fresh_session in
  isAuthenticated (AuthProvider w') = true
  ∧ localStorage w' !! key = None.
Proof. vm_compute. repeat split. Qed.

(** C3, amended: for credentials accepted by [LoginSchema] whose user
    name is not empty and for every token, after [login] the session is
    authenticated and its user is the user name of the credentials; and
    after [logout] the session is not authenticated. *)
Theorem login_logout_session (raw : value) (creds : LoginType) (tok : string) (w : World) :
  LoginSchema raw = Zod.Valid creds ->
  username creds ≠ "" ->
  let w' := exec (login creds tok) w in
  isAuthenticated (AuthProvider w') = true
  ∧ ctx_user (AuthProvider w') = Some (username creds)
  ∧ ∀ w0 : World, isAuthenticated (AuthProvider (exec logout w0)) = false.
Proof.
  intros _ Hu w'. subst w'. simpl. rewrite login_user. simpl.
  rewrite (truthy_string_nonempty _ Hu). repeat split.
Qed.

Lemma login_logout_session_witness :
  LoginSchema (form "admin" "admin") = Zod.Valid {| username := "admin"; password := "admin" |}
  ∧ isAuthenticated (AuthProvider
      (exec (login {| username := "admin"; password := "admin" |} "skajdksjakdj")
         fresh_session)) = true.
Proof.
  split; [reflexivity|].
  apply (login_logout_session (form "admin" "admin")
           {| username := "admin"; password := "admin" |} "skajdksjakdj" fresh_session).
  - reflexivity.
  - discriminate.
Defined.

End AuthFacts.

(** ** The guard of the protected subtree *)

Module AuthRouteFacts.
Import Auth AuthRoute.

(** Outside of an [AuthProvider] the guard throws. *)
Lemma component_without_provider : component None = Throws "useAuth must be used within an AuthProvider".
Proof. reflexivity. Qed.

Lemma component_element (auth : AuthContext) :
  component (Some auth) = Returns (if Auth.isAuthenticated auth then Outlet else AuthComponent).
Proof. unfold component. simpl. by destruct (Auth.isAuthenticated auth). Qed.

(** C2: on every navigation into the protected subtree the guard shows,
    at the location navigated to, the login form when the session is
    not authenticated and the matched child route when it is. *)
Theorem guard_renders (location : string) (auth : AuthContext) :
  render location (Some auth) =
    Returns {| pathname := location;
               element := match Auth.isAuthenticated auth with
                          | false => AuthComponent
                          | true => Outlet
                          end |}.
Proof. unfold render. rewrite component_element. by destruct (Auth.isAuthenticated auth). Qed.

(** The guard follows the provider: after [logout] the next render of
    the subtree shows the login form. *)
Lemma guard_after_logout (location : string) (w : World) :
  render location (Some (AuthProvider (exec logout w))) =
    Returns {| pathname := location; element := AuthComponent |}.
Proof. reflexivity. Qed.

End AuthRouteFacts.

(** ** The search-parameter schema *)

Module FiltersFacts.
Import JS Filters Router Sample.

(** One field of the schema: [z.number().optional().catch(undefined)]. *)
Lemma field_schema (v : value) :
  Zod.catch (Zod.optional Zod.number) None v =
    Zod.Valid (match Zod.number v with
               | Zod.Valid n => Some n
               | Zod.Invalid _ => None
               end).
Proof.
  unfold Zod.catch, Zod.optional.
  destruct v; simpl; try reflexivity.
  by destruct (PrimFloat.is_nan n).
Qed.

Lemma validateSearch_fields (search : list (string * value)) :
  validateSearch search =
    Zod.Valid {| userId := match Zod.number (get "userId" search) with
                           | Zod.Valid n => Some n
                           | Zod.Invalid _ => None
                           end;
                 postId := match Zod.number (get "postId" search) with
                           | Zod.Valid n => Some n
                           | Zod.Invalid _ => None
                           end |}.
Proof.
  unfold validateSearch, FilterSchema, Zod.object2.
  by rewrite !field_schema.
Qed.

Lemma number_valid (v : value) (n : number) :
  Zod.number v = Zod.Valid n -> v = VNum n ∧ PrimFloat.is_nan n = false.
Proof.
  destruct v; simpl; try discriminate.
  destruct (PrimFloat.is_nan n0) eqn:E; [discriminate|].
  by intros [= ->].
Qed.

(** The schema only produces valid filters. *)
Lemma validateSearch_valid (search : list (string * value)) (f : FilterType) :
  validateSearch search = Zod.Valid f -> valid f = true.
Proof.
  rewrite validateSearch_fields. intros [= <-]. unfold valid. simpl.
  destruct (Zod.number (get "userId" search)) eqn:Eu,
           (Zod.number (get "postId" search)) eqn:Ep; simpl;
    repeat match goal with
           | E : Zod.number _ = Zod.Valid _ |- _ =>
               apply number_valid in E; destruct E as [_ ->]
           end; reflexivity.
Qed.

(** C6: [validateSearch] never raises: for every search object read
    from the URL it returns a filter, in which a field is the number
    found under its key, and is absent when the key is absent or holds
    anything that is not a number. *)
Theorem validateSearch_never_raises (search : list (string * value)) :
  ∃ f : FilterType,
    validateSearch search = Zod.Valid f
    ∧ (∀ n, Zod.number (get "userId" search) = Zod.Valid n -> userId f = Some n)
    ∧ (Zod.success (Zod.number (get "userId" search)) = false -> userId f = None)
    ∧ (∀ n, Zod.number (get "postId" search) = Zod.Valid n -> postId f = Some n)
    ∧ (Zod.success (Zod.number (get "postId" search)) = false -> postId f = None).
Proof.
  eexists. split; [apply validateSearch_fields|]. simpl.
  destruct (Zod.number (get "userId" search)),
           (Zod.number (get "postId" search)); simpl;
    repeat split; intros; congruence.
Qed.

(** Malformed values seen in URLs: a string, [null], a nested object,
    and [NaN]. *)
Example validateSearch_malformed :
  validateSearch [("userId", VStr "abc"); ("postId", VNull)] = Zod.Valid no_filter
  ∧ validateSearch [("userId", VObj []); ("postId", VNum PrimFloat.nan)] = Zod.Valid no_filter
  ∧ validateSearch [("userId", VNum 3%float); ("page", VNum 2%float)] = Zod.Valid user_three.
Proof. repeat split. Qed.

(** The URL keeps [Infinity] as the text [Infinity], which is read back
    as a string and not as a number. *)
Example infinity_through_the_URL :
  stringifySearch {| userId := Some PrimFloat.infinity; postId := Some 7%float |}
  = [("userId", Infinity_text false); ("postId", Digits 7%float)]
  ∧ parseSearch [("userId", Infinity_text false); ("postId", Digits 7%float)]
    = [("userId", VStr "Infinity"); ("postId", VNum 7%float)]
  ∧ validateSearch [("userId", VStr "Infinity"); ("postId", VNum 7%float)]
    = Zod.Valid {| userId := None; postId := Some 7%float |}.
Proof. repeat split. Qed.

(** C8, as stated, fails: the filter whose [userId] is [Infinity] is
    valid (the schema accepts it), but its search string holds the text
    [Infinity], which is parsed as a string, and validation of that
    search gives the filter without [userId]. *)
Lemma search_round_trip_counterexample :
  ¬ (∀ f : FilterType,
       valid f = true ->
       validateSearch (parseSearch (stringifySearch f)) = Zod.Valid f).
Proof.
  intros Hclaim.
  specialize (Hclaim {| userId := Some PrimFloat.infinity; postId := None |} eq_refl).
  vm_compute in Hclaim. discriminate.
Qed.

Lemma parseSearch_app (a b : SearchString) :
  parseSearch (a ++ b)%list = (parseSearch a ++ parseSearch b)%list.
Proof. apply map_app. Qed.

Lemma get_parsed_field (k : string) (o : option number) (rest : list (string * value)) :
  get k (parseSearch (stringify_field k o) ++ rest)%list =
    match o with
    | Some n => parse_value (String_of_number n)
    | None => get k rest
    end.
Proof. destruct o; simpl; [|reflexivity]. by rewrite String.eqb_refl. Qed.

Lemma get_parsed_other (k k' : string) (o : option number) (rest : list (string * value)) :
  String.eqb k k' = false ->
  get k (parseSearch (stringify_field k' o) ++ rest)%list = get k rest.
Proof. intros E. destruct o; simpl; [|reflexivity]. by rewrite E. Qed.

(** The text of a finite number is read back as a number that is [===]
    to it. *)
Lemma finite_number_read_back (n : number) :
  PrimFloat.is_finite n = true ->
  ∃ m : number,
    Zod.number (parse_value (String_of_number n)) = Zod.Valid m
    ∧ PrimFloat.eqb n m = true.
Proof.
  unfold PrimFloat.is_finite. intros Hfin%negb_true_iff.
  apply orb_false_iff in Hfin as [Hnan Hinf].
  unfold String_of_number. rewrite Hnan, Hinf.
  destruct (PrimFloat.is_zero n) eqn:Hz; simpl.
  - exists 0%float. by split.
  - exists n. rewrite Hnan. split; [done|].
    unfold PrimFloat.is_nan in Hnan. by apply negb_false_iff in Hnan.
Qed.

Lemma finite_field_read_back (o : option number) :
  finite_field o = true ->
  strict_equal o
    match Zod.number match o with
                     | Some n => parse_value (String_of_number n)
                     | None => VUndefined
                     end with
    | Zod.Valid m => Some m
    | Zod.Invalid _ => None
    end = true.
Proof.
  destruct o as [n|]; simpl; [|done].
  intros (m & -> & Heq)%finite_number_read_back. exact Heq.
Qed.

(** C8, amended: for every valid filter whose present fields are finite
    numbers, writing the filter into the search string of a URL and
    resolving that search gives a filter whose fields are [===] to those
    of the first (a field [-0] comes back as [0]). *)
Theorem finite_search_round_trip (f : FilterType) :
  valid f = true ->
  finite f = true ->
  ∃ g : FilterType,
    validateSearch (parseSearch (stringifySearch f)) = Zod.Valid g
    ∧ same_filter f g = true.
Proof.
  intros _ Hfin. destruct f as [u p]. unfold finite in Hfin. simpl in Hfin.
  apply andb_prop in Hfin as [Hu Hp].
  rewrite validateSearch_fields. eexists. split; [reflexivity|].
  unfold same_filter, stringifySearch. cbn [userId postId].
  rewrite parseSearch_app.
  rewrite get_parsed_field, (get_parsed_other "postId" "userId") by reflexivity.
  rewrite <- (app_nil_r (parseSearch (stringify_field "postId" p))).
  rewrite get_parsed_field, (get_parsed_other "userId" "postId") by reflexivity.
  apply andb_true_intro. split.
  - destruct u as [n|]; [by apply (finite_field_read_back (Some n))|reflexivity].
  - by apply finite_field_read_back.
Qed.

Lemma finite_search_round_trip_witness :
  valid user_three = true ∧ finite user_three = true
  ∧ ∃ g : FilterType,
      validateSearch (parseSearch (stringifySearch user_three)) = Zod.Valid g
      ∧ same_filter user_three g = true.
Proof.
  split; [reflexivity|]. split; [reflexivity|].
  apply (finite_search_round_trip user_three); reflexivity.
Defined.

(** A field that is finite and not a zero comes back as itself. *)
Example search_round_trip_exact :
  validateSearch (parseSearch (stringifySearch
    {| userId := Some 3%float; postId := Some 7%float |}))
  = Zod.Valid {| userId := Some 3%float; postId := Some 7%float |}
  ∧ validateSearch (parseSearch (stringifySearch
      {| userId := Some (-0)%float; postId := None |}))
    = Zod.Valid {| userId := Some 0%float; postId := None |}.
Proof. split; reflexivity. Qed.

End FiltersFacts.

(** ** The fetch function *)

Module PostsFacts.
Import JS Filters Posts Sample.

Section Facts.
Context `{PostsTypes}.

(** The two branches of [GetUserPostById]. *)
Lemma GetUserPostById_skip (filter : FilterType) :
  truthy_opt_number (postId filter) = false ->
  truthy_opt_number (userId filter) = false ->
  GetUserPostById filter = Return (error placeholderPost).
Proof. intros Hp Hu. unfold GetUserPostById. by rewrite Hp, Hu. Qed.

Lemma GetUserPostById_fetch (filter : FilterType) :
  truthy_opt_number (postId filter) || truthy_opt_number (userId filter) = true ->
  GetUserPostById filter =
    Await_get "posts" filter (fun data =>
      match Zod.array PostSchema data with
      | Zod.Invalid _ => Return (error placeholderPost)
      | Zod.Valid posts => Return (success posts)
      end).
Proof.
  intros Hid. unfold GetUserPostById.
  destruct (truthy_opt_number (postId filter)), (truthy_opt_number (userId filter));
    try discriminate; reflexivity.
Qed.

Lemma run_skip (net : Network) (filter : FilterType) :
  truthy_opt_number (postId filter) = false ->
  truthy_opt_number (userId filter) = false ->
  run net (GetUserPostById filter) = (Fulfilled (error placeholderPost), []).
Proof. intros Hp Hu. by rewrite GetUserPostById_skip. Qed.

Lemma truthy_zero (n : number) : PrimFloat.is_zero n = true -> truthy_number n = false.
Proof. intros Hz. unfold truthy_number. by rewrite Hz. Qed.

(** C4: for every filter in which both [userId] and [postId] are absent,
    the fetch function returns the error-tagged placeholder without
    awaiting the network: whatever the network, no request is sent. *)
Theorem no_filter_skips_network (filter : FilterType) :
  userId filter = None ->
  postId filter = None ->
  GetUserPostById filter = Return (error placeholderPost)
  ∧ ∀ net : Network,
      run net (GetUserPostById filter) = (Fulfilled (error placeholderPost), []).
Proof.
  intros Hu Hp. split; [|intros net]; rewrite ?GetUserPostById_skip;
    rewrite ?Hu, ?Hp; reflexivity.
Qed.

(** C5: when the data returned by the request does not pass
    [PostSchema.array()], the fetch function is fulfilled (it does not
    reject) with the error-tagged placeholder, in which nothing of the
    data is kept. *)
Theorem invalid_payload_gives_placeholder (net : Network) (filter : FilterType) (data : value) :
  truthy_opt_number (postId filter) || truthy_opt_number (userId filter) = true ->
  net "posts" filter = Some data ->
  Zod.success (Zod.array PostSchema data) = false ->
  run net (GetUserPostById filter) = (Fulfilled (error placeholderPost), [("posts", filter)]).
Proof.
  intros Hid Hnet Hbad. rewrite (GetUserPostById_fetch _ Hid). simpl. rewrite Hnet.
  destruct (Zod.array PostSchema data); [discriminate|]. reflexivity.
Qed.

(** A payload that passes is returned, success-tagged. *)
Lemma valid_payload_gives_success (net : Network) (filter : FilterType) (data : value)
    (posts : list PostType) :
  truthy_opt_number (postId filter) || truthy_opt_number (userId filter) = true ->
  net "posts" filter = Some data ->
  Zod.array PostSchema data = Zod.Valid posts ->
  run net (GetUserPostById filter) = (Fulfilled (success posts), [("posts", filter)]).
Proof.
  intros Hid Hnet Hok. rewrite (GetUserPostById_fetch _ Hid). simpl.
  by rewrite Hnet, Hok.
Qed.

(** A request that fails rejects the fetch function. *)
Lemma network_failure_rejects (net : Network) (filter : FilterType) :
  truthy_opt_number (postId filter) || truthy_opt_number (userId filter) = true ->
  net "posts" filter = None ->
  run net (GetUserPostById filter) = (Rejected, [("posts", filter)]).
Proof. intros Hid Hnet. rewrite (GetUserPostById_fetch _ Hid). simpl. by rewrite Hnet. Qed.

(** C9: a filter whose only identifier is zero is treated as a filter
    without identifiers: with [userId] (or [postId]) equal to [0] and the
    other field absent, no request is sent and the error-tagged
    placeholder is returned, because [!filter.userId] is true on [0]. *)
Theorem zero_id_skips_network (filter : FilterType) (n : number) :
  PrimFloat.is_zero n = true ->
  (userId filter = Some n ∧ postId filter = None)
  ∨ (postId filter = Some n ∧ userId filter = None) ->
  GetUserPostById filter = Return (error placeholderPost)
  ∧ ∀ net : Network,
      run net (GetUserPostById filter) = (Fulfilled (error placeholderPost), []).
Proof.
  intros Hz%truthy_zero Hid.
  assert (truthy_opt_number (postId filter) = false
          ∧ truthy_opt_number (userId filter) = false) as [Hp Hu].
  { destruct Hid as [[-> ->] | [-> ->]]; simpl; auto. }
  split; [|intros net]; by rewrite GetUserPostById_skip.
Qed.

End Facts.

Lemma no_filter_skips_network_witness :
  userId no_filter = None ∧ postId no_filter = None
  ∧ GetUserPostById no_filter = Return (error "placeholder").
Proof.
  split; [reflexivity|]. split; [reflexivity|].
  exact (proj1 (no_filter_skips_network no_filter eq_refl eq_refl)).
Defined.

Lemma invalid_payload_gives_placeholder_witness :
  broken_backend "posts" user_three = Some (VObj [("message", VStr "oops")])
  ∧ Zod.success (Zod.array PostSchema (VObj [("message", VStr "oops")])) = false
  ∧ run broken_backend (GetUserPostById user_three)
    = (Fulfilled (error "placeholder"), [("posts", user_three)]).
Proof.
  split; [reflexivity|]. split; [reflexivity|].
  exact (invalid_payload_gives_placeholder broken_backend user_three
           (VObj [("message", VStr "oops")]) eq_refl eq_refl eq_refl).
Defined.

Lemma zero_id_skips_network_witness :
  PrimFloat.is_zero 0%float = true
  ∧ GetUserPostById user_zero = Return (error "placeholder").
Proof.
  split; [reflexivity|].
  exact (proj1 (zero_id_skips_network user_zero 0%float eq_refl
                  (or_introl (conj eq_refl eq_refl)))).
Defined.

End PostsFacts.

(** ** The query cache *)

Module QueryClientFacts.
Import JS Filters Posts QueryClient.

Section Facts.
Context `{PostsTypes} `{Hashing}.

Lemma in_flight_None (h : string) (c : QueryCache) :
  in_flight h c = None ↔ h ∉ in_flight_keys c.
Proof.
  unfold in_flight, in_flight_keys.
  rewrite fmap_None, list_find_None, Forall_forall, list_elem_of_fmap.
  split.
  - intros Hall (q & -> & Hq). by apply (Hall q).
  - intros Hnone q Hq Hh. apply Hnone. by exists q.
Qed.

Lemma list_find_appended (P : Fetch -> Prop) `{!∀ q, Decision (P q)}
    (qs : list Fetch) (q : Fetch) :
  list_find P qs = None -> P q ->
  snd <$> list_find P (qs ++ [q])%list = Some q.
Proof.
  intros Hnone Hq. rewrite list_find_app_r by done. simpl.
  by rewrite decide_True.
Qed.

Lemma sent_length {A} (b : Async A) : (length (sent b) ≤ 1)%nat.
Proof. destruct b; simpl; lia. Qed.

(** The three cases of [ensureQueryData]. *)
Lemma ensureQueryData_cached (options : QueryOptions) (c : QueryCache) entry :
  cached (hashKey (queryKey options)) c = Some entry ->
  ensureQueryData options c = (Ready entry, c).
Proof. intros Hq. unfold ensureQueryData. by rewrite Hq. Qed.

Lemma ensureQueryData_joined (options : QueryOptions) (c : QueryCache) q :
  cached (hashKey (queryKey options)) c = None ->
  in_flight (hashKey (queryKey options)) c = Some q ->
  ensureQueryData options c = (Pending (promise q), c).
Proof. intros Hq Hf. unfold ensureQueryData. by rewrite Hq, Hf. Qed.

(** A second call right after a first one starts nothing and returns
    the handle of the first. *)
Lemma ensureQueryData_twice (options : QueryOptions) (c : QueryCache) :
  ensureQueryData options (ensureQueryData options c).2 = ensureQueryData options c.
Proof.
  unfold ensureQueryData at 2 3.
  destruct (cached (hashKey (queryKey options)) c) as [entry|] eqn:Hq; simpl.
  { by apply ensureQueryData_cached. }
  destruct (in_flight (hashKey (queryKey options)) c) as [q|] eqn:Hf; simpl.
  { by apply ensureQueryData_joined. }
  unfold ensureQueryData, in_flight. unfold cached in *. simpl. rewrite Hq.
  unfold in_flight in Hf. apply fmap_None in Hf.
  by rewrite (list_find_appended _ _ _ Hf).
Qed.

(** A call starts the [queryFn] of its key at most once and sends at
    most one request. *)
Lemma ensureQueryData_starts (options : QueryOptions) (c : QueryCache) :
  let c' := (ensureQueryData options c).2 in
  (started c' = started c ∨ started c' = (started c ++ [hashKey (queryKey options)])%list)
  ∧ (length (requests c') ≤ S (length (requests c)))%nat.
Proof.
  unfold ensureQueryData.
  destruct (cached (hashKey (queryKey options)) c); simpl; [auto|].
  destruct (in_flight (hashKey (queryKey options)) c); simpl; [auto|].
  split; [auto|]. rewrite length_app.
  pose proof (sent_length (queryFn options)). lia.
Qed.

(** The loader sends no request for a filter without identifiers. *)
Lemma loader_no_filter_sends_nothing (filters : FilterType) (c : QueryCache) :
  truthy_opt_number (postId filters) = false ->
  truthy_opt_number (userId filters) = false ->
  requests (loader filters c).2 = requests c.
Proof.
  intros Hp Hu. unfold loader, ensureQueryData.
  destruct (cached _ c); simpl; [done|].
  destruct (in_flight _ c); simpl; [done|].
  unfold GetUserPostById. rewrite Hp, Hu. simpl. apply app_nil_r.
Qed.

(** ** At most one resolution in flight for a key *)

Lemma in_flight_keys_resume (p : nat) (b : Async ReturnUserPostType) (qs : list Fetch) :
  queryHash <$> (resume p b <$> qs) = queryHash <$> qs.
Proof.
  rewrite <- list_fmap_compose. apply list_fmap_ext. intros _ q _.
  unfold resume. simpl. by case_bool_decide.
Qed.

Lemma in_flight_keys_discard (p : nat) (qs : list Fetch) :
  NoDup (queryHash <$> qs) -> NoDup (queryHash <$> discard p qs).
Proof.
  intros Hnd. eapply sublist_NoDup; [exact Hnd|].
  apply fmap_sublist, sublist_filter.
Qed.

Lemma ensureQueryData_NoDup (options : QueryOptions) (c : QueryCache) :
  NoDup (in_flight_keys c) -> NoDup (in_flight_keys (ensureQueryData options c).2).
Proof.
  intros Hnd. unfold ensureQueryData.
  destruct (cached (hashKey (queryKey options)) c); simpl; [done|].
  destruct (in_flight (hashKey (queryKey options)) c) eqn:Hf; simpl; [done|].
  apply in_flight_None in Hf.
  unfold in_flight_keys in *. simpl. rewrite fmap_app. simpl.
  apply NoDup_app. split; [done|]. split; [|apply NoDup_singleton].
  intros h Hin ->%list_elem_of_singleton. done.
Qed.

Lemma step_NoDup (c : QueryCache) (e : Event) :
  NoDup (in_flight_keys c) -> NoDup (in_flight_keys (step c e)).
Proof.
  intros Hnd. destruct e as [filters | p response | p | p | h]; simpl; [| | | |done].
  - by apply ensureQueryData_NoDup.
  - destruct (find_promise p c) as [[? ? [r | path params k]]|]; try done.
    unfold in_flight_keys. simpl. by rewrite in_flight_keys_resume.
  - destruct (find_promise p c) as [[? ? [r | path params k]]|]; try done.
    by apply in_flight_keys_discard.
  - destruct (find_promise p c) as [[? ? [r | path params k]]|]; try done.
    by apply in_flight_keys_discard.
Qed.

Lemma steps_NoDup (trace : list Event) (c : QueryCache) :
  NoDup (in_flight_keys c) -> NoDup (in_flight_keys (steps c trace)).
Proof.
  revert c. induction trace as [|e trace IH]; intros c Hnd; simpl; [done|].
  by apply IH, step_NoDup.
Qed.

(** C1: two calls of the loader for a filter, one right after the
    other, start the fetch function of the filter's key at most once
    and send at most one request; the second call changes nothing in the
    cache and both calls hold the same handle, so that they read the same
    entry from it in every later state.  A call that finds a resolution
    in flight for its key joins it.  And in every state that the cache
    reaches, no key has two resolutions in flight. *)
Theorem ensure_coalesces (filters : FilterType) (c : QueryCache) :
  let key := hashKey (queryKey (UserPostById filters)) in
  let first := loader filters c in
  let second := loader filters first.2 in
  second.1 = first.1
  ∧ second.2 = first.2
  ∧ (∀ later : QueryCache, observe later second.1 = observe later first.1)
  ∧ (∀ q : Fetch, cached key c = None -> in_flight key c = Some q ->
       first = (Pending (promise q), c))
  ∧ (started second.2 = started c ∨ started second.2 = (started c ++ [key])%list)
  ∧ (length (requests second.2) ≤ S (length (requests c)))%nat
  ∧ ∀ trace : list Event, NoDup (in_flight_keys (steps empty_cache trace)).
Proof.
  intros key first second. subst key first second. unfold loader.
  rewrite ensureQueryData_twice.
  destruct (ensureQueryData_starts (UserPostById filters) c) as [Hs Hr].
  repeat split; try done.
  { intros q Hc Hq. by apply ensureQueryData_joined. }
  intros trace. apply steps_NoDup. unfold in_flight_keys. simpl. apply NoDup_nil_2.
Qed.

End Facts.

(** Runs of the model on the sample instance. *)
Import Sample.

(** Two navigations to the same search before the response: one request
    and one resolution in flight. *)
Example two_navigations_one_request :
  let c := steps empty_cache [Ensure user_three; Ensure user_three] in
  requests c = [("posts", user_three)]
  ∧ in_flight_keys c = ["posts-by-user#_"]
  ∧ (loader user_three c).1 = Pending 0.
Proof. vm_compute. repeat split. Qed.

(** Once the response is stored, the next navigation is served from the
    cache, and sends nothing. *)
Example served_from_cache :
  let c := steps empty_cache
             [Ensure user_three; Respond 0 (VArr [VStr "qui est esse"]); Settle 0] in
  loader user_three c = (Ready (success ["qui est esse"]), c)
  ∧ requests c = [("posts", user_three)]
  ∧ in_flight_keys c = [].
Proof. vm_compute. repeat split. Qed.

(** When its time-to-live has run out the entry is resolved again. *)
Example stale_entry_refetched :
  let c := steps empty_cache
             [Ensure user_three; Respond 0 (VArr []); Settle 0;
              Expire "posts-by-user#_"; Ensure user_three; Ensure user_three] in
  requests c = [("posts", user_three); ("posts", user_three)]
  ∧ in_flight_keys c = ["posts-by-user#_"].
Proof. vm_compute. repeat split. Qed.

(** A failed request leaves nothing behind; the next navigation sends
    the request again. *)
Example failed_request_not_cached :
  let c := steps empty_cache [Ensure user_three; NetworkError 0] in
  in_flight_keys c = []
  ∧ cached "posts-by-user#_" c = None
  ∧ requests (steps c [Ensure user_three]) = [("posts", user_three); ("posts", user_three)].
Proof. vm_compute. repeat split. Qed.

(** A response that is not an array of posts is stored as the
    placeholder. *)
Example malformed_response_cached_as_placeholder :
  let c := steps empty_cache
             [Ensure user_three; Respond 0 (VObj [("message", VStr "oops")]); Settle 0] in
  loader user_three c = (Ready (error "placeholder"), c)
  ∧ observe c (Pending 0) = Some (error "placeholder").
Proof. vm_compute. repeat split. Qed.

(** Without a filter the resolution sends no request and settles to the
    placeholder. *)
Example no_filter_no_request :
  let c := steps empty_cache [Ensure no_filter; Settle 0] in
  requests c = []
  ∧ loader no_filter c = (Ready (error "placeholder"), c).
Proof. vm_compute. repeat split. Qed.

End QueryClientFacts.

(** ** The provider across logins, logouts and reloads *)

Module SessionFacts.
Import JS Auth Session Sample AuthFacts.

Lemma mount_eq (storage : gmap string string) :
  mount storage =
    {| localStorage := storage; user := storage !! key; token := storage !! keyToken |}.
Proof. reflexivity. Qed.

Lemma truthy_string_true (s : string) : truthy_string s = true -> s ≠ "".
Proof. by destruct s. Qed.

Lemma truthy_string_false (s : string) : truthy_string s = false -> s = "".
Proof. by destruct s. Qed.

(** The four shapes of the storage after [login], by which of the user
    name and the token are empty. *)
Lemma login_storage (l : LoginType) (t : string) (w : World) :
  localStorage (exec (login l t) w) =
    let s := if truthy_string (username l)
             then <[key := username l]> (localStorage w)
             else delete key (localStorage w) in
    if truthy_string t then <[keyToken := t]> s else delete key s.
Proof.
  unfold login, exec, mbind, M_bind, sleep, mret, M_ret. simpl.
  destruct (truthy_string (username l)), (truthy_string t); reflexivity.
Qed.

Lemma login_lookup_other (l : LoginType) (t : string) (w : World) (k : string) :
  k ≠ key -> k ≠ keyToken ->
  localStorage (exec (login l t) w) !! k = localStorage w !! k.
Proof.
  intros Hk Ht. rewrite login_storage. simpl.
  assert (key ≠ k) as Hk' by done. assert (keyToken ≠ k) as Ht' by done.
  destruct (truthy_string (username l)), (truthy_string t);
    repeat first [rewrite lookup_insert_ne by assumption
                 | rewrite lookup_delete_ne by assumption]; reflexivity.
Qed.

Lemma logout_lookup_other (w : World) (k : string) :
  k ≠ key -> localStorage (exec logout w) !! k = localStorage w !! k.
Proof.
  intros Hk. rewrite logout_exec. simpl.
  assert (key ≠ k) as Hk' by done. by rewrite lookup_delete_ne.
Qed.

Lemma mount_coherent (storage : gmap string string) : coherent (mount storage).
Proof. by rewrite mount_eq. Qed.

Lemma reload_coherent (w : World) : coherent w -> mount (localStorage w) = w.
Proof. intros [Hu Ht]. rewrite mount_eq. destruct w; simpl in *. by subst. Qed.

Lemma login_coherent (l : LoginType) (t : string) (w : World) :
  username l ≠ "" -> t ≠ "" -> coherent (exec (login l t) w).
Proof.
  intros Hu Ht. rewrite (login_exec _ _ _ Hu Ht). split; simpl.
  - rewrite lookup_insert_ne by (symmetry; apply key_neq_keyToken).
    by rewrite lookup_insert_eq.
  - by rewrite lookup_insert_eq.
Qed.

Lemma logout_coherent (w : World) : coherent w -> coherent (exec logout w).
Proof.
  intros [Hu Ht]. rewrite logout_exec. split; simpl.
  - by rewrite lookup_delete_eq.
  - rewrite lookup_delete_ne by apply key_neq_keyToken. done.
Qed.

Lemma act_coherent (w : World) (a : Action) :
  well_formed a = true -> coherent w -> coherent (act w a).
Proof.
  destruct a as [l t | |]; simpl; intros Hwf Hw.
  - apply andb_prop in Hwf as [Hu Ht].
    apply login_coherent; by apply truthy_string_true.
  - by apply logout_coherent.
  - apply mount_coherent.
Qed.

Lemma session_after_coherent (actions : list Action) (w : World) :
  forallb well_formed actions = true -> coherent w ->
  coherent (session_after w actions).
Proof.
  revert w. induction actions as [|a actions IH]; intros w Hwf Hw; simpl in *; [done|].
  apply andb_prop in Hwf as [Ha Hrest]. by apply IH, act_coherent.
Qed.

(** X1: a [login] with a user name and a token that are not empty
    survives a reload: the provider mounted on the storage it leaves
    has that user and that token, and is authenticated. *)
Theorem login_then_reload (l : LoginType) (t : string) (w : World) :
  username l ≠ "" -> t ≠ "" ->
  let w' := mount (localStorage (exec (login l t) w)) in
  user w' = Some (username l)
  ∧ token w' = Some t
  ∧ isAuthenticated (AuthProvider w') = true.
Proof.
  intros Hu Ht w'. subst w'.
  rewrite (reload_coherent _ (login_coherent _ _ w Hu Ht)).
  rewrite login_user, login_token. simpl. rewrite login_user. simpl.
  by rewrite truthy_string_nonempty.
Qed.

Lemma login_then_reload_witness :
  let w' := mount (localStorage
              (exec (login {| username := "admin"; password := "admin" |} "skajdksjakdj")
                 fresh_session)) in
  user w' = Some "admin" ∧ token w' = Some "skajdksjakdj"
  ∧ isAuthenticated (AuthProvider w') = true.
Proof.
  apply (login_then_reload {| username := "admin"; password := "admin" |}
           "skajdksjakdj" fresh_session); discriminate.
Defined.

(** X2: whatever the storage at start, after any sequence of logins
    with non-empty user name and token, logouts and reloads, a reload
    changes nothing: the session in memory is the one the storage
    restores. *)
Theorem reload_changes_nothing (storage : gmap string string) (actions : list Action) :
  forallb well_formed actions = true ->
  let w := session_after (mount storage) actions in
  mount (localStorage w) = w.
Proof.
  intros Hwf w. subst w.
  apply reload_coherent, session_after_coherent; [done|apply mount_coherent].
Qed.

Lemma reload_changes_nothing_witness :
  forallb well_formed Fixtures.a_day = true
  ∧ mount (localStorage (session_after (mount ∅) Fixtures.a_day)) = session_after (mount ∅) Fixtures.a_day.
Proof. split; [reflexivity | apply (reload_changes_nothing ∅ Fixtures.a_day); reflexivity]. Defined.

(** X3: a [login] with the empty token leaves a session in memory with
    the user of the credentials, but removes that user from the storage
    ([setStoredToken] takes its clearing branch, which removes the user
    key): after a reload the session is not authenticated. *)
Theorem login_empty_token_not_persisted (l : LoginType) (w : World) :
  let w' := exec (login l "") w in
  user w' = Some (username l)
  ∧ isAuthenticated (AuthProvider w') = truthy_string (username l)
  ∧ localStorage w' !! key = None
  ∧ isAuthenticated (AuthProvider (mount (localStorage w'))) = false.
Proof.
  intros w'. subst w'.
  assert (localStorage (exec (login l "") w) !! key = None) as Hk.
  { rewrite login_storage. simpl. apply lookup_delete_eq. }
  rewrite mount_eq. simpl. rewrite Hk, login_user. done.
Qed.

(** X4: after [logout] and a reload the session is not authenticated
    and has no user, but its token is the one that was persisted
    before the logout. *)
Theorem logout_then_reload (w : World) :
  let w' := mount (localStorage (exec logout w)) in
  user w' = None
  ∧ isAuthenticated (AuthProvider w') = false
  ∧ token w' = localStorage w !! keyToken.
Proof.
  rewrite logout_exec, mount_eq. simpl.
  rewrite lookup_delete_eq, lookup_delete_ne by apply key_neq_keyToken. done.
Qed.

(** X5: [login] and [logout] write to the two keys of the provider
    only: every other key of the storage keeps its value, whatever the
    credentials and the token. *)
Theorem other_keys_untouched (l : LoginType) (t : string) (w : World) (k : string) :
  k ≠ key -> k ≠ keyToken ->
  localStorage (exec (login l t) w) !! k = localStorage w !! k
  ∧ localStorage (exec logout w) !! k = localStorage w !! k.
Proof.
  intros Hk Ht. split; [by apply login_lookup_other | by apply logout_lookup_other].
Qed.

Lemma other_keys_untouched_witness :
  "vite-ui-theme" ≠ key ∧ "vite-ui-theme" ≠ keyToken
  ∧ localStorage (exec (login {| username := "admin"; password := "admin" |} "skajdksjakdj")
                    Fixtures.themed_session) !! "vite-ui-theme" = Some "dark".
Proof.
  split; [discriminate|]. split; [discriminate|].
  destruct (other_keys_untouched {| username := "admin"; password := "admin" |}
              "skajdksjakdj" Fixtures.themed_session "vite-ui-theme") as [Hl _];
    [discriminate | discriminate |].
  rewrite Hl. reflexivity.
Defined.

Lemma act_lookup_other (w : World) (a : Action) (k : string) :
  k ≠ key -> k ≠ keyToken ->
  localStorage (act w a) !! k = localStorage w !! k.
Proof.
  intros Hk Ht. destruct a as [l t | |]; simpl.
  - by apply login_lookup_other.
  - by apply logout_lookup_other.
  - reflexivity.
Qed.

(** X6: the last login wins: a [login] with a user name and a token that
    are not empty leaves the same session and the same storage whether
    or not a login, a logout or a reload came just before it. *)
Theorem last_login_wins (a : Action) (l : LoginType) (t : string) (w : World) :
  username l ≠ "" -> t ≠ "" ->
  act (act w a) (Login l t) = act w (Login l t).
Proof.
  intros Hu Ht. simpl. rewrite !(login_exec _ _ _ Hu Ht). f_equal.
  apply map_eq. intros k.
  destruct (decide (k = keyToken)) as [->|Hkt].
  { by rewrite !lookup_insert_eq. }
  rewrite !(lookup_insert_ne _ keyToken) by done.
  destruct (decide (k = key)) as [->|Hk].
  { by rewrite !lookup_insert_eq. }
  rewrite !(lookup_insert_ne _ key) by done.
  by apply act_lookup_other.
Qed.

Lemma last_login_wins_witness :
  act (act stored_session Logout)
      (Login {| username := "leo"; password := "secret" |} "t0k3n")
  = act stored_session (Login {| username := "leo"; password := "secret" |} "t0k3n").
Proof.
  apply (last_login_wins Logout {| username := "leo"; password := "secret" |} "t0k3n"
           stored_session); discriminate.
Defined.

(** X7: at start the session is authenticated exactly when the storage
    holds a user that is not the empty string; the persisted token
    plays no part. *)
Theorem authenticated_at_start (storage : gmap string string) :
  isAuthenticated (AuthProvider (mount storage)) = true
  ↔ ∃ u : string, storage !! key = Some u ∧ u ≠ "".
Proof.
  rewrite mount_eq. simpl. split.
  - destruct (storage !! key) as [u|]; simpl; [|discriminate].
    intros Hu%truthy_string_true. by exists u.
  - intros (u & -> & Hu). simpl. by apply truthy_string_nonempty.
Qed.

End SessionFacts.

(** ** The login schema, the login form and the guard *)

Module LoginFacts.
Import JS Auth AuthRoute UserAuthForm Sample AuthFacts.

Lemma username_schema (v : value) :
  Zod.string_ "The field is required, buddy" [Zod.Trim] v =
    match v with
    | VStr s => Zod.Valid (trim s)
    | VUndefined => Zod.Invalid "The field is required, buddy"
    | _ => Zod.Invalid "Expected string"
    end.
Proof. by destruct v. Qed.

Lemma password_schema (v : value) :
  Zod.string_ "We need it to test on the machine"
    [Zod.Min 3 "You’re missing numbers here, friend";
     Zod.Max 14 "Whoa, friend, this isn’t German, why so many letters?";
     Zod.Trim] v =
    match v with
    | VStr s =>
        if Nat.ltb (JS.string_length s) 3
        then Zod.Invalid "You’re missing numbers here, friend"
        else if Nat.ltb 14 (JS.string_length s)
             then Zod.Invalid "Whoa, friend, this isn’t German, why so many letters?"
             else Zod.Valid (trim s)
    | VUndefined => Zod.Invalid "We need it to test on the machine"
    | _ => Zod.Invalid "Expected string"
    end.
Proof.
  destruct v; try reflexivity. unfold Zod.string_, Zod.run_checks.
  by destruct (Nat.ltb (JS.string_length s) 3), (Nat.ltb 14 (JS.string_length s)).
Qed.

Lemma LoginSchema_fields (fields : list (string * value)) :
  LoginSchema (VObj fields) =
    match get "username" fields, get "password" fields with
    | VStr u, VStr p =>
        if Nat.ltb (JS.string_length p) 3
        then Zod.Invalid "You’re missing numbers here, friend"
        else if Nat.ltb 14 (JS.string_length p)
             then Zod.Invalid "Whoa, friend, this isn’t German, why so many letters?"
             else Zod.Valid {| username := trim u; password := trim p |}
    | VStr _, VUndefined => Zod.Invalid "We need it to test on the machine"
    | VStr _, _ => Zod.Invalid "Expected string"
    | VUndefined, _ => Zod.Invalid "The field is required, buddy"
    | _, _ => Zod.Invalid "Expected string"
    end.
Proof.
  unfold LoginSchema, Zod.object2. rewrite username_schema, password_schema.
  destruct (get "username" fields), (get "password" fields); try reflexivity.
  by destruct (Nat.ltb (JS.string_length s0) 3), (Nat.ltb 14 (JS.string_length s0)).
Qed.

(** X8: [LoginSchema] accepts exactly the objects whose [username] and
    [password] are strings and whose password, as typed, has a
    [.length] of 3 to 14 (UTF-16 code units); the credentials it yields
    are the two strings trimmed of the white space and line terminators
    of ECMAScript.  The user name is not constrained, and the length of
    the password is checked before it is trimmed. *)
Theorem LoginSchema_accepts (v : value) (creds : LoginType) :
  LoginSchema v = Zod.Valid creds
  ↔ ∃ (fields : list (string * value)) (u p : string),
      v = VObj fields
      ∧ get "username" fields = VStr u
      ∧ get "password" fields = VStr p
      ∧ (3 ≤ JS.string_length p ≤ 14)%nat
      ∧ creds = {| username := trim u; password := trim p |}.
Proof.
  split.
  - destruct v as [| | | | |items|fields]; try discriminate.
    rewrite LoginSchema_fields.
    destruct (get "username" fields) as [| | | |u| |] eqn:Hu; try discriminate;
      destruct (get "password" fields) as [| | | |p| |] eqn:Hp; try discriminate.
    destruct (Nat.ltb_spec (JS.string_length p) 3); [discriminate|].
    destruct (Nat.ltb_spec 14 (JS.string_length p)); [discriminate|].
    intros [= <-]. exists fields, u, p. repeat split; auto.
  - intros (fields & u & p & -> & Hu & Hp & [Hmin Hmax] & ->).
    rewrite LoginSchema_fields, Hu, Hp.
    destruct (Nat.ltb_spec (JS.string_length p) 3); [lia|].
    destruct (Nat.ltb_spec 14 (JS.string_length p)); [lia|]. reflexivity.
Qed.

(** Lengths are counted as [.length] counts them and white space is
    that of [trim]: eight accented letters are a password of length 8,
    two are too short, a character outside the basic plane counts for
    two, and a no-break space and an ideographic space are trimmed. *)
Example LoginSchema_counts_code_units :
  LoginSchema (form "admin" "éééééééé")
  = Zod.Valid {| username := "admin"; password := "éééééééé" |}
  ∧ Zod.success (LoginSchema (form "admin" "éé")) = false
  ∧ string_length "😀" = 2
  ∧ trim " admin　" = "admin".
Proof. repeat split. Qed.

(** A password of three spaces passes the length check and is trimmed
    to the empty password; what the schema yields need not pass the
    schema again. *)
Example LoginSchema_checks_before_trim :
  LoginSchema (form "admin" "   ") = Zod.Valid {| username := "admin"; password := "" |}
  ∧ Zod.success (LoginSchema (form "admin" "")) = false.
Proof. split; reflexivity. Qed.

Lemma eqb_admin (values : LoginType) :
  String.eqb (username values) "admin" && String.eqb (password values) "admin" = true
  ↔ values = {| username := "admin"; password := "admin" |}.
Proof.
  destruct values as [u p]. simpl. rewrite andb_true_iff, !String.eqb_eq.
  split; [by intros [-> ->] | by intros [= -> ->]].
Qed.

(** X9: the submit handler of the login form calls [login] for the
    credentials [admin]/[admin] only, with the token [skajdksjakdj]: the
    session is then authenticated as [admin], the success toast is shown
    and the router is invalidated.  For all other values it shows the
    error toast and changes neither the session nor the storage. *)
Theorem onSubmit_admin_only (values : LoginType) (w : World) :
  (values = {| username := "admin"; password := "admin" |} ->
     onSubmit values w =
       ({| toast := toast_success "toastMessage.success.title"; invalidate := true |},
        exec (login values "skajdksjakdj") w)
     ∧ user (exec (onSubmit values) w) = Some "admin"
     ∧ token (exec (onSubmit values) w) = Some "skajdksjakdj"
     ∧ Auth.isAuthenticated (AuthProvider (exec (onSubmit values) w)) = true)
  ∧ (values ≠ {| username := "admin"; password := "admin" |} ->
     onSubmit values w =
       ({| toast := toast_error "toastMessage.error.title"; invalidate := false |}, w)).
Proof.
  split.
  - intros ->.
    assert (onSubmit {| username := "admin"; password := "admin" |} w =
              ({| toast := toast_success "toastMessage.success.title"; invalidate := true |},
               exec (login {| username := "admin"; password := "admin" |} "skajdksjakdj") w))
      as Hs.
    { unfold onSubmit. simpl. unfold mbind, M_bind, exec.
      by destruct (login _ _ w). }
    assert (exec (onSubmit {| username := "admin"; password := "admin" |}) w =
              exec (login {| username := "admin"; password := "admin" |} "skajdksjakdj") w)
      as He.
    { unfold exec at 1. by rewrite Hs. }
    split; [exact Hs|]. rewrite !He.
    split; [apply login_user|]. split; [apply login_token|].
    cbn [Auth.isAuthenticated AuthProvider]. by rewrite login_user.
  - intros Hne. unfold onSubmit.
    destruct (String.eqb (username values) "admin" && String.eqb (password values) "admin")
      eqn:E; [|reflexivity].
    by apply eqb_admin in E.
Qed.

(** X10: the guard follows the session.  After a [login] the protected
    subtree shows the matched child route, unless the user name is
    empty, in which case it still shows the login form; after a
    [logout] it shows the login form; and after a reload it shows the
    child route exactly when the storage holds a non-empty user. *)
Theorem guard_follows_session (location : string) (l : LoginType) (t : string) (w : World) :
  render location (Some (AuthProvider (exec (login l t) w))) =
    Returns {| pathname := location;
               element := if truthy_string (username l) then Outlet else AuthComponent |}
  ∧ render location (Some (AuthProvider (exec logout w))) =
      Returns {| pathname := location; element := AuthComponent |}
  ∧ render location (Some (AuthProvider (mount (localStorage w)))) =
      Returns {| pathname := location;
                 element := if truthy_opt_string (localStorage w !! key)
                            then Outlet else AuthComponent |}.
Proof.
  unfold render. rewrite !AuthRouteFacts.component_element. simpl.
  rewrite login_user. simpl.
  split; [by destruct (truthy_string (username l))|].
  split; [reflexivity|].
  by destruct (truthy_opt_string (localStorage w !! key)).
Qed.

End LoginFacts.

(** ** More on the fetch function *)

Module FetchFacts.
Import JS Filters Posts PostsFacts.

Section Facts.
Context `{PostsTypes}.

Lemma run_fetch (net : Network) (filter : FilterType) :
  truthy_opt_number (postId filter) || truthy_opt_number (userId filter) = true ->
  run net (GetUserPostById filter) =
    match net "posts" filter with
    | None => (Rejected, [("posts", filter)])
    | Some data =>
        (Fulfilled match Zod.array PostSchema data with
                   | Zod.Invalid _ => error placeholderPost
                   | Zod.Valid posts => success posts
                   end,
         [("posts", filter)])
    end.
Proof.
  intros Hid. rewrite (GetUserPostById_fetch _ Hid). simpl.
  destruct (net "posts" filter) as [data|]; [|reflexivity].
  by destruct (Zod.array PostSchema data).
Qed.

Lemma truthy_cases (filter : FilterType) :
  (truthy_opt_number (postId filter) = false ∧ truthy_opt_number (userId filter) = false)
  ∨ truthy_opt_number (postId filter) || truthy_opt_number (userId filter) = true.
Proof.
  destruct (truthy_opt_number (postId filter)), (truthy_opt_number (userId filter)); auto.
Qed.

(** X11: whatever the network answers, the fetch function sends at most
    one request; it sends one exactly when [postId] or [userId] is
    truthy, and that request is a [get] of [posts] with the filter
    itself as parameters. *)
Theorem requests_sent (net : Network) (filter : FilterType) :
  (run net (GetUserPostById filter)).2 =
    if truthy_opt_number (postId filter) || truthy_opt_number (userId filter)
    then [("posts", filter)]
    else [].
Proof.
  destruct (truthy_cases filter) as [[Hp Hu] | Hid].
  - rewrite run_skip by done. by rewrite Hp, Hu.
  - rewrite run_fetch, Hid by done.
    by destruct (net "posts" filter).
Qed.

(** X12: the fetch function rejects exactly when it sends its request
    and the request fails; a response of any shape, and a filter without
    identifiers, never make it reject. *)
Theorem rejects_iff_request_fails (net : Network) (filter : FilterType) :
  (run net (GetUserPostById filter)).1 = Rejected
  ↔ truthy_opt_number (postId filter) || truthy_opt_number (userId filter) = true
    ∧ net "posts" filter = None.
Proof.
  destruct (truthy_cases filter) as [[Hp Hu] | Hid].
  - rewrite run_skip by done. rewrite Hp, Hu. simpl. split; [discriminate|].
    by intros [? _].
  - rewrite run_fetch by done.
    destruct (net "posts" filter) as [data|]; simpl.
    + split; [discriminate | by intros [_ ?]].
    + by split.
Qed.

Lemma parse_items_Valid {A} (s : Zod.schema A) (items : list value) (l : list A) :
  Zod.parse_items s items = Zod.Valid l ->
  Forall2 (fun v a => s v = Zod.Valid a) items l.
Proof.
  revert l. induction items as [|v items IH]; intros l; simpl.
  - intros [= <-]. constructor.
  - destruct (s v) as [a|] eqn:Hv; [|discriminate].
    destruct (Zod.parse_items s items) as [l'|]; [|discriminate].
    intros [= <-]. constructor; auto.
Qed.

Lemma parse_items_Forall {A} (s : Zod.schema A) (items : list value) :
  Forall (fun v => Zod.success (s v) = true) items ->
  ∃ l, Zod.parse_items s items = Zod.Valid l.
Proof.
  induction 1 as [|v items Hv _ [l IH]]; simpl; [by eexists|].
  destruct (s v) as [a|]; [|discriminate]. rewrite IH. by eexists.
Qed.

Lemma parse_items_Exists {A} (s : Zod.schema A) (items : list value) :
  Exists (fun v => Zod.success (s v) = false) items ->
  Zod.success (Zod.parse_items s items) = false.
Proof.
  induction 1 as [v items Hv | v items _ IH]; simpl.
  - by destruct (s v).
  - destruct (s v); [|done]. by destruct (Zod.parse_items s items).
Qed.

(** X13: validation of the response is all or nothing.  When the
    response is an array, one item that does not pass [PostSchema] makes
    the result the error-tagged placeholder, whatever the other items;
    when every item passes, the result is success-tagged and holds the
    parsed items, one for each item of the response, in their order. *)
Theorem response_all_or_nothing (net : Network) (filter : FilterType) (items : list value) :
  truthy_opt_number (postId filter) || truthy_opt_number (userId filter) = true ->
  net "posts" filter = Some (VArr items) ->
  (Exists (fun v => Zod.success (PostSchema v) = false) items ->
     (run net (GetUserPostById filter)).1 = Fulfilled (error placeholderPost))
  ∧ (Forall (fun v => Zod.success (PostSchema v) = true) items ->
     ∃ posts : list PostType,
       (run net (GetUserPostById filter)).1 = Fulfilled (success posts)
       ∧ Forall2 (fun v post => PostSchema v = Zod.Valid post) items posts).
Proof.
  intros Hid Hnet. rewrite run_fetch, Hnet by done. simpl. split.
  - intros Hbad%parse_items_Exists.
    by destruct (Zod.parse_items PostSchema items).
  - intros [posts Hok]%parse_items_Forall. rewrite Hok.
    exists posts. split; [done|]. by apply parse_items_Valid.
Qed.

End Facts.

Import Sample.

(** A healthy backend: one request, and the parsed posts
    success-tagged. *)
Example healthy_backend_gives_success :
  run (fun _ _ => Some (VArr [VStr "qui est esse"; VStr "ea molestias"]))
      (GetUserPostById user_three)
  = (Fulfilled (success ["qui est esse"; "ea molestias"]), [("posts", user_three)]).
Proof.
  exact (valid_payload_gives_success
           (fun _ _ => Some (VArr [VStr "qui est esse"; VStr "ea molestias"]))
           user_three (VArr [VStr "qui est esse"; VStr "ea molestias"])
           ["qui est esse"; "ea molestias"] eq_refl eq_refl eq_refl).
Qed.

Lemma response_all_or_nothing_witness :
  (run (fun _ _ => Some (VArr [VStr "qui est esse"; VNull; VStr "ea molestias"]))
       (GetUserPostById user_three)).1
  = Fulfilled (error "placeholder").
Proof.
  refine (proj1 (response_all_or_nothing
           (fun _ _ => Some (VArr [VStr "qui est esse"; VNull; VStr "ea molestias"]))
           user_three [VStr "qui est esse"; VNull; VStr "ea molestias"] eq_refl eq_refl) _).
  apply Exists_cons_tl, Exists_cons_hd. reflexivity.
Defined.

End FetchFacts.

(** ** More on the search schema *)

Module SearchFacts.
Import JS Filters Posts FiltersFacts PostsFacts Sample.

(** X14: the schema reads the keys [userId] and [postId] and nothing
    else: two search objects that agree on these two keys validate to
    the same filter, whatever other keys they hold. *)
Theorem validateSearch_reads_two_keys (search1 search2 : list (string * value)) :
  get "userId" search1 = get "userId" search2 ->
  get "postId" search1 = get "postId" search2 ->
  validateSearch search1 = validateSearch search2.
Proof. intros Hu Hp. by rewrite !validateSearch_fields, Hu, Hp. Qed.

Lemma validateSearch_reads_two_keys_witness :
  validateSearch [("page", VNum 2%float); ("userId", VNum 3%float); ("q", VStr "qui")]
  = validateSearch [("userId", VNum 3%float)].
Proof. apply validateSearch_reads_two_keys; reflexivity. Defined.

(** X15: no identifier of a validated filter is [NaN]. *)
Theorem validateSearch_no_nan (search : list (string * value)) (f : FilterType) :
  validateSearch search = Zod.Valid f ->
  (∀ n, userId f = Some n -> PrimFloat.is_nan n = false)
  ∧ (∀ n, postId f = Some n -> PrimFloat.is_nan n = false).
Proof.
  intros Hv%validateSearch_valid. unfold valid in Hv.
  apply andb_prop in Hv as [Hu Hp].
  split; intros n Hn; [rewrite Hn in Hu | rewrite Hn in Hp]; simpl in *;
    by apply negb_true_iff.
Qed.

Lemma validateSearch_no_nan_witness :
  validateSearch [("userId", VNum 3%float); ("postId", VNum PrimFloat.nan)] = Zod.Valid user_three
  ∧ PrimFloat.is_nan 3%float = false.
Proof.
  split; [reflexivity|].
  exact (proj1 (validateSearch_no_nan
                  [("userId", VNum 3%float); ("postId", VNum PrimFloat.nan)]
                  user_three eq_refl) 3%float eq_refl).
Defined.

Section Facts.
Context `{PostsTypes}.

(** X16: a URL in which neither [userId] nor [postId] holds a number
    sends nothing to the network: its search validates to the filter
    without identifiers, for which the fetch function returns the
    error-tagged placeholder without a request. *)
Theorem malformed_search_sends_nothing (search : list (string * value)) (net : Network) :
  (∀ n, get "userId" search ≠ VNum n) ->
  (∀ n, get "postId" search ≠ VNum n) ->
  validateSearch search = Zod.Valid {| userId := None; postId := None |}
  ∧ run net (GetUserPostById {| userId := None; postId := None |})
    = (Fulfilled (error placeholderPost), []).
Proof.
  intros Hu Hp. split; [|by apply run_skip].
  rewrite validateSearch_fields.
  destruct (get "userId" search) as [| | |n| | |]; try (by destruct (Hu n));
    destruct (get "postId" search) as [| | |m| | |]; try (by destruct (Hp m));
    reflexivity.
Qed.

End Facts.

Lemma malformed_search_sends_nothing_witness :
  validateSearch [("userId", VStr "abc"); ("postId", VNull)] = Zod.Valid no_filter
  ∧ run broken_backend (GetUserPostById no_filter) = (Fulfilled (error "placeholder"), []).
Proof.
  refine (malformed_search_sends_nothing [("userId", VStr "abc"); ("postId", VNull)]
            broken_backend _ _); intros n; discriminate.
Defined.

End SearchFacts.

(** ** The list of users and posts *)

Module UsersFacts.
Import JS Auth Filters Posts UsersRoute FiltersFacts.

Lemma find_None {A} (f : A -> bool) (l : list A) :
  List.find f l = None ↔ Forall (fun x => f x = false) l.
Proof.
  induction l as [|a l IH]; simpl.
  - split; [constructor | done].
  - destruct (f a) eqn:Ha.
    + split; [discriminate|]. intros Hall. apply Forall_cons_1 in Hall as [Hf _]. congruence.
    + rewrite IH. split; [by constructor | by intros [_ ?]%Forall_cons_1].
Qed.

Lemma user_name_throws (n : number) :
  (∃ message, user_name n = Throws message)
  ↔ Forall (fun user => PrimFloat.eqb (id user) n = false) USERS.
Proof.
  unfold user_name. rewrite <- find_None.
  destruct (List.find _ USERS); split; try done.
  - by intros [message ?].
  - by eexists.
Qed.

Lemma map_thrown_throws {A B} (f : A -> thrown B) (l : list A) :
  (∃ message, map_thrown f l = Throws message)
  ↔ Exists (fun a => ∃ message, f a = Throws message) l.
Proof.
  induction l as [|a l IH]; simpl.
  - split; [by intros [? ?] | by intros ?%Exists_nil].
  - rewrite Exists_cons, <- IH. destruct (f a) as [b|message].
    + destruct (map_thrown f l) as [bs|message'].
      * split; [by intros [? ?] | by intros [[? ?] | [? ?]]].
      * split; [intros _; right; by eexists | intros _; by eexists].
    + split; [intros _; left; by eexists | intros _; by eexists].
Qed.

Lemma map_thrown_Returns {A B} (f : A -> thrown B) (l : list A) (bs : list B) :
  map_thrown f l = Returns bs -> Forall2 (fun a b => f a = Returns b) l bs.
Proof.
  revert bs. induction l as [|a l IH]; intros bs; simpl.
  - intros [= <-]. constructor.
  - destruct (f a) as [b|] eqn:Ha; [|discriminate].
    destruct (map_thrown f l) as [bs'|]; [|discriminate].
    intros [= <-]. constructor; auto.
Qed.

(** X17: submitting the filter form navigates to [/users] with a search
    that holds the submitted [userId] only: it validates to the filter
    with that [userId] and no [postId], whatever [postId] the form data
    has. *)
Theorem onSubmit_keeps_userId_only (data : FilterType) :
  valid_field (userId data) = true ->
  to (onSubmit data) = "/users"
  ∧ validateSearch (search (onSubmit data))
    = Zod.Valid {| userId := userId data; postId := None |}.
Proof.
  intros Hu. split; [reflexivity|].
  rewrite validateSearch_fields. simpl. f_equal. f_equal.
  destruct (userId data) as [n|]; simpl in *; [|reflexivity].
  by destruct (PrimFloat.is_nan n).
Qed.

Lemma onSubmit_keeps_userId_only_witness :
  validateSearch (search (onSubmit {| userId := Some 3%float; postId := Some 7%float |}))
  = Zod.Valid {| userId := Some 3%float; postId := None |}.
Proof.
  apply (onSubmit_keeps_userId_only {| userId := Some 3%float; postId := Some 7%float |}).
  reflexivity.
Defined.

Section Facts.
Context `{PostFields}.

(** X18: the list of posts throws while rendering exactly when the
    loader data is success-tagged and one of its posts has a [userId]
    that is the [id] of no entry of [USERS]; the placeholder and the
    empty list never throw. *)
Theorem posts_view_throws (posts : ReturnUserPostType) :
  (∃ message, posts_view posts = Throws message)
  ↔ ∃ data : list PostType,
      posts = success data
      ∧ Exists (fun post =>
                  Forall (fun user => PrimFloat.eqb (id user) (post_userId post) = false)
                    USERS) data.
Proof.
  destruct posts as [placeholder | data]; simpl.
  - split; [by intros [? ?] | by intros (? & ? & _)].
  - assert ((∃ message,
               match data with
               | [] => Returns NoContent
               | _ :: _ =>
                   match map_thrown post_link data with
                   | Returns links => Returns (PostLinks links)
                   | Throws message => Throws message
                   end
               end = Throws message)
            ↔ ∃ message, map_thrown post_link data = Throws message) as ->.
    { destruct data as [|post data]; [by split; intros [? ?]|].
      destruct (map_thrown post_link (post :: data)) as [links | thrown].
      - split; intros [m Hm]; discriminate.
      - split; intros _; by exists thrown. }
    rewrite map_thrown_throws. split.
    + intros Hex. exists data. split; [done|].
      eapply Exists_impl; [exact Hex|]. intros post [message Hm]. simpl in Hm.
      apply user_name_throws. unfold post_link in Hm.
      destruct (user_name (post_userId post)); [discriminate | by eexists].
    + intros (data' & [= <-] & Hex).
      eapply Exists_impl; [exact Hex|]. intros post [message Hm]%user_name_throws. simpl.
      exists message. unfold post_link. by rewrite Hm.
Qed.

(** X19: when the list of posts renders, it shows one link for each
    post, in their order; the link of a post goes to [/users/$id] and
    its search validates to the filter with the [userId] and the [id]
    of that post (for posts whose two identifiers are not [NaN]). *)
Theorem post_links_search (data : list PostType) (links : list PostLink) :
  posts_view (success data) = Returns (PostLinks links) ->
  Forall (fun post => PrimFloat.is_nan (post_id post) = false
                      ∧ PrimFloat.is_nan (post_userId post) = false) data ->
  Forall2 (fun post link =>
             link_to link = "/users/$id"
             ∧ validateSearch (link_search link)
               = Zod.Valid {| userId := Some (post_userId post);
                              postId := Some (post_id post) |}) data links.
Proof.
  intros Hview Hnan. simpl in Hview.
  destruct data as [|post data]; [discriminate|].
  destruct (map_thrown post_link (post :: data)) as [links'|] eqn:Hmap; [|discriminate].
  injection Hview as <-. apply map_thrown_Returns in Hmap.
  revert Hnan. induction Hmap as [|p l ps ls Hp _ IH]; intros Hnan; [constructor|].
  apply Forall_cons_1 in Hnan as [[Hid Huid] Hrest].
  constructor; [|by apply IH].
  unfold post_link in Hp. destruct (user_name (post_userId p)); [|discriminate].
  injection Hp as <-. simpl. split; [reflexivity|].
  rewrite validateSearch_fields. simpl. by rewrite Hid, Huid.
Qed.

End Facts.

Import Fixtures.

Lemma post_links_search_witness :
  Forall2 (fun post link =>
             link_to link = "/users/$id"
             ∧ validateSearch (link_search link)
               = Zod.Valid {| userId := Some (author post); postId := Some (number post) |})
    [first_post]
    [{| link_key := 1%float; link_to := "/users/$id"; link_params_id := "Allberson";
        link_search := [("postId", VNum 1%float); ("userId", VNum 1%float)];
        link_title := "sunt aut facere"; link_body := "quia et suscipit" |}].
Proof.
  apply (@post_links_search Fixtures.posts Fixtures.fields [first_post]).
  - reflexivity.
  - repeat constructor.
Defined.

(** From the response to the links: a healthy backend, the fetch
    function and the view. *)
Example response_to_links :
  (@run (@ReturnUserPostType Fixtures.posts) healthy_backend
     (@GetUserPostById Fixtures.posts {| userId := Some 1%float; postId := None |})).1
  = Fulfilled (@success Fixtures.posts [first_post])
  ∧ @posts_view Fixtures.posts Fixtures.fields (@success Fixtures.posts [first_post])
    = Returns (PostLinks
        [{| link_key := 1%float; link_to := "/users/$id"; link_params_id := "Allberson";
            link_search := [("postId", VNum 1%float); ("userId", VNum 1%float)];
            link_title := "sunt aut facere"; link_body := "quia et suscipit" |}]).
Proof. split; reflexivity. Qed.

(** When the network is down the fetch function rejects. *)
Example offline_rejects :
  (@run (@ReturnUserPostType Fixtures.posts) offline
     (@GetUserPostById Fixtures.posts {| userId := Some 1%float; postId := None |})).1
  = Rejected.
Proof. reflexivity. Qed.

(** A post of a user that is not in the table makes the list throw. *)
Example stray_post_throws :
  @posts_view Fixtures.posts Fixtures.fields
    (@success Fixtures.posts [first_post; stray_post])
  = Throws "TypeError: Cannot read properties of undefined (reading 'name')".
Proof. reflexivity. Qed.

End UsersFacts.
